(** * wow-auto-shot: the pixel reader and its control loop

    A shallow embedding of [src/main.py] (with the defaults of its
    [Config] dataclass; [src/config.py] repeats it with another toggle
    key) and the properties of its sampling -> classification ->
    debounce -> actuation loop.

    Python integers are unbounded, so every [int] is a [Z].  The two
    collaborators are kept abstract: the frame-grabber is a function from
    a region to a screenshot or an exception, the virtual input device is
    seen through the trace of events the loop emits.  Wall-clock durations
    are not modelled; each [time.sleep] leaves a symbolic event. *)

From Stdlib Require Import ZArith List Bool Lia String.
From stdpp Require Import base tactics option list.
Import ListNotations.

Local Open Scope Z_scope.

(** ** Configuration *)

(** [class Config]: the integer and key fields.  [poll_rate] is a float
    used only as the argument of [time.sleep]; it appears as the event
    [EvSleep PollRate]. *)
Record Config := {
  pixel_x : Z;
  pixel_y : Z;
  sample_size : Z;
  green_threshold : Z;
  red_threshold : Z;
  off_channel_max : Z;
  debounce_frames : Z;
  move_key : string;
  toggle_hotkey : string;
  quit_hotkey : string;
  calibrate_hotkey : string
}.

(** The defaults of [main.py]. *)
Definition default_config : Config := {|
  pixel_x := 960;
  pixel_y := 540;
  sample_size := 3;
  green_threshold := 150;
  red_threshold := 150;
  off_channel_max := 100;
  debounce_frames := 2;
  move_key := "w";
  toggle_hotkey := "f6";
  quit_hotkey := "f7";
  calibrate_hotkey := "f8"
|}.

(** ** State *)

Inductive PixelState := GREEN | RED | BLACK | UNKNOWN.

#[global] Instance PixelState_eq_dec : EqDecision PixelState.
Proof. solve_decision. Defined.

(** [class AppState], without its lock: every access below is one atomic
    step of the interleaving, which is what the lock provides. *)
Record AppState := {
  enabled : bool;
  running : bool;
  current_state : PixelState;
  is_moving : bool;
  calibrating : bool;
  debounce_count : Z;
  pending_state : PixelState
}.

(** [AppState.__init__]. *)
Definition init_state : AppState := {|
  enabled := false;
  running := true;
  current_state := UNKNOWN;
  is_moving := false;
  calibrating := false;
  debounce_count := 0;
  pending_state := UNKNOWN
|}.

(** ** Exceptions *)

(** The two exceptions the sampling code can raise: the frame-grabber's
    own error (a failed [grab], or [pixel] out of range) and Python's
    division by zero. *)
Inductive Exn := ScreenShotError | ZeroDivisionError.

Inductive Result (A : Type) :=
| Ok (a : A)
| Raise (e : Exn).
Arguments Ok {A} a.
Arguments Raise {A} e.

#[global] Instance Result_bind : MBind Result := fun A B k m =>
  match m with
  | Ok a => k a
  | Raise e => Raise e
  end.

(** Python's [a // b]: floor division, raising on a zero divisor.
    [Z.div] rounds towards minus infinity for either sign of [b]. *)
Definition floordiv (a b : Z) : Result Z :=
  if b =? 0 then Raise ZeroDivisionError else Ok (a / b).

(** ** Pixel reading *)

(** [classify_pixel]. *)
Definition classify_pixel (r g b : Z) (cfg : Config) : PixelState :=
  if (g >? green_threshold cfg) && (r <? off_channel_max cfg) then GREEN
  else if (r >? red_threshold cfg) && (g <? off_channel_max cfg) then RED
  else if (r <? 50) && (g <? 50) && (b <? 50) then BLACK
  else UNKNOWN.

(** What [img.pixel(x, y)] returns, by index.  The source reads the tuple
    as BGRA ([px[0]] blue, [px[1]] green, [px[2]] red); the fourth
    component is never read. *)
Record Pixel := { px0 : Z; px1 : Z; px2 : Z }.

(** A screenshot is its rows of pixels; [pixel(x, y)] is row [y], column
    [x], and fails outside the grid. *)
Definition ScreenShot := list (list Pixel).

Definition img_pixel (img : ScreenShot) (x y : nat) : Result Pixel :=
  match img !! y with
  | Some row =>
      match row !! x with
      | Some px => Ok px
      | None => Raise ScreenShotError
      end
  | None => Raise ScreenShotError
  end.

Record Region := { top : Z; left : Z; width : Z; height : Z }.

(** The frame-grabber at one instant: [sct.grab]. *)
Definition Sct := Region -> Result ScreenShot.

Definition sample_region (cfg : Config) : Region :=
  {| top := pixel_y cfg; left := pixel_x cfg;
     width := sample_size cfg; height := sample_size cfg |}.

(** [range(n)]: empty for [n <= 0]. *)
Definition range (n : Z) : list nat := seq 0 (Z.to_nat n).

(** A [for] loop over a list of indices whose body may raise. *)
Fixpoint for_each {S : Type} (body : nat -> S -> Result S)
    (xs : list nat) (s : S) : Result S :=
  match xs with
  | [] => Ok s
  | x :: xs' => s' ← body x s; for_each body xs' s'
  end.

(** The running totals [total_r, total_g, total_b]. *)
Record Totals := { total_r : Z; total_g : Z; total_b : Z }.

Definition add_pixel (px : Pixel) (t : Totals) : Totals :=
  {| total_r := total_r t + px2 px;
     total_g := total_g t + px1 px;
     total_b := total_b t + px0 px |}.

(** The body of the inner loop: read the pixel, add its channels. *)
Definition add_pixel_at (img : ScreenShot) (x y : nat) (t : Totals)
    : Result Totals :=
  px ← img_pixel img x y; Ok (add_pixel px t).

(** The two nested loops of [read_pixel_state]. *)
Definition sum_sample (cfg : Config) (img : ScreenShot) : Result Totals :=
  for_each
    (fun y => for_each (fun x => add_pixel_at img x y)
                (range (sample_size cfg)))
    (range (sample_size cfg))
    {| total_r := 0; total_g := 0; total_b := 0 |}.

(** The averaged triple [(avg_r, avg_g, avg_b)] of [read_pixel_state]. *)
Definition average_sample (cfg : Config) (img : ScreenShot)
    : Result (Z * Z * Z) :=
  t ← sum_sample cfg img;
  let count := sample_size cfg * sample_size cfg in
  avg_r ← floordiv (total_r t) count;
  avg_g ← floordiv (total_g t) count;
  avg_b ← floordiv (total_b t) count;
  Ok (avg_r, avg_g, avg_b).

(** [read_pixel_state]. *)
Definition read_pixel_state (sct : Sct) (cfg : Config) : Result PixelState :=
  img ← sct (sample_region cfg);
  avg ← average_sample cfg img;
  let '(avg_r, avg_g, avg_b) := avg in
  Ok (classify_pixel avg_r avg_g avg_b cfg).

(** ** Observable events *)

(** The three sleeps of the source: [cfg.poll_rate], [0.05] and [0.1]. *)
Inductive Delay := PollRate | Ms50 | Ms100.

(** The console lines that depend on the state. *)
Inductive Console :=
| StateLine (s : PixelState) (moving : bool)
| ReleasedLine
| CalibrationBanner
| CalibrationLine (r g b : Z) (s : PixelState)
| ExitedCalibration
| CleanedUp.

Inductive Event :=
| EvGrab (r : Region)
| EvKeyDown (key : string)
| EvKeyUp (key : string)
| EvSleep (d : Delay)
| EvPrint (line : Console).

(** ** Field updates of [AppState] *)

Definition set_enabled (v : bool) (st : AppState) : AppState :=
  {| enabled := v; running := running st; current_state := current_state st;
     is_moving := is_moving st; calibrating := calibrating st;
     debounce_count := debounce_count st; pending_state := pending_state st |}.

Definition set_running (v : bool) (st : AppState) : AppState :=
  {| enabled := enabled st; running := v; current_state := current_state st;
     is_moving := is_moving st; calibrating := calibrating st;
     debounce_count := debounce_count st; pending_state := pending_state st |}.

Definition set_current_state (v : PixelState) (st : AppState) : AppState :=
  {| enabled := enabled st; running := running st; current_state := v;
     is_moving := is_moving st; calibrating := calibrating st;
     debounce_count := debounce_count st; pending_state := pending_state st |}.

Definition set_is_moving (v : bool) (st : AppState) : AppState :=
  {| enabled := enabled st; running := running st;
     current_state := current_state st;
     is_moving := v; calibrating := calibrating st;
     debounce_count := debounce_count st; pending_state := pending_state st |}.

Definition set_calibrating (v : bool) (st : AppState) : AppState :=
  {| enabled := enabled st; running := running st;
     current_state := current_state st;
     is_moving := is_moving st; calibrating := v;
     debounce_count := debounce_count st; pending_state := pending_state st |}.

Definition set_debounce_count (v : Z) (st : AppState) : AppState :=
  {| enabled := enabled st; running := running st;
     current_state := current_state st;
     is_moving := is_moving st; calibrating := calibrating st;
     debounce_count := v; pending_state := pending_state st |}.

Definition set_pending_state (v : PixelState) (st : AppState) : AppState :=
  {| enabled := enabled st; running := running st;
     current_state := current_state st;
     is_moving := is_moving st; calibrating := calibrating st;
     debounce_count := debounce_count st; pending_state := v |}.

(** ** Debounce and actuation (the body of the ACTIVE tick) *)

(** "Debounce: require N consistent reads": the accumulator update. *)
Definition debounce (new_state : PixelState) (st : AppState) : AppState :=
  if bool_decide (new_state = pending_state st)
  then set_debounce_count (debounce_count st + 1) st
  else set_debounce_count 1 (set_pending_state new_state st).

(** The guard of the confirmation branch. *)
Definition confirms (cfg : Config) (new_state : PixelState) (st : AppState)
    : bool :=
  (debounce_count st >=? debounce_frames cfg)
  && negb (bool_decide (new_state = current_state st)).

(** One reading through the filter: the new state, and the confirmed
    transition when there is one. *)
Definition observe (cfg : Config) (new_state : PixelState) (st : AppState)
    : AppState * option PixelState :=
  let st1 := debounce new_state st in
  if confirms cfg new_state st1
  then (set_current_state new_state st1, Some new_state)
  else (st1, None).

(** "Act on state change". *)
Definition actuate (cfg : Config) (new_state : PixelState) (st : AppState)
    : AppState * list Event :=
  if bool_decide (new_state = GREEN) && negb (is_moving st)
  then (set_is_moving true st, [EvKeyDown (move_key cfg)])
  else if bool_decide (new_state ∈ [RED; BLACK; UNKNOWN]) && is_moving st
  then (set_is_moving false st, [EvKeyUp (move_key cfg)])
  else (st, []).

(** ** The control loop as a step function *)

(** How [main] ends: it returns, or an exception leaves it. *)
Inductive Outcome := Returned | Raised (e : Exn).

(** Where the main thread stands.  The hotkey and tray threads can run
    between any two of these points; the fields they write ([enabled],
    [running], [calibrating]) are read once per point. *)
Inductive Pc :=
| LoopHead                 (* [while state.running] *)
| CalSnapshot              (* [is_calibrating = state.calibrating] *)
| CalLoop                  (* top of [while True] in [calibrate] *)
| EnSnapshot               (* [is_enabled = state.enabled] *)
| DisabledBody             (* the [if not is_enabled] branch *)
| ActiveBody               (* from [read_pixel_state] to the sleep *)
| Finally (o : Outcome)    (* the [finally] block *)
| Done (o : Outcome).

#[global] Instance Exn_eq_dec : EqDecision Exn.
Proof. solve_decision. Defined.
#[global] Instance Outcome_eq_dec : EqDecision Outcome.
Proof. solve_decision. Defined.
#[global] Instance Pc_eq_dec : EqDecision Pc.
Proof. solve_decision. Defined.

(** The shared [AppState], the main thread's program point and its
    local [last_print_state]. *)
Record World := {
  app : AppState;
  pc : Pc;
  last_print_state : option PixelState
}.

Definition goto (p : Pc) (w : World) : World :=
  {| app := app w; pc := p; last_print_state := last_print_state w |}.

Definition with_app (st : AppState) (w : World) : World :=
  {| app := st; pc := pc w; last_print_state := last_print_state w |}.

(** [main] after its setup, about to enter the loop. *)
Definition init_world : World :=
  {| app := init_state; pc := LoopHead; last_print_state := None |}.

(** The callbacks of the hotkey listener and of the tray menu. *)
Inductive Command := ToggleEnable | ToggleCalibrate | Quit.

Definition apply_command (c : Command) (st : AppState) : AppState :=
  match c with
  | ToggleEnable => set_enabled (negb (enabled st)) st
  | ToggleCalibrate => set_calibrating (negb (calibrating st)) st
  | Quit => set_running false st
  end.

(** One iteration of the loop of [calibrate]. *)
Definition calibrate_iteration (cfg : Config) (sct : Sct) (w : World)
    : World * list Event :=
  if negb (calibrating (app w))
  then (goto LoopHead w, [EvPrint ExitedCalibration])
  else
    let grab := EvGrab (sample_region cfg) in
    let c := sample_size cfg / 2 in
    let sample :=
      img ← sct (sample_region cfg);
      if c <? 0 then Raise ScreenShotError
      else img_pixel img (Z.to_nat c) (Z.to_nat c) in
    match sample with
    | Raise e => (goto (Finally (Raised e)) w, [grab])
    | Ok px =>
        let '(r, g, b) := (px2 px, px1 px, px0 px) in
        (w, [grab; EvPrint (CalibrationLine r g b (classify_pixel r g b cfg));
             EvSleep Ms100])
    end.

(** The [if not is_enabled] branch. *)
Definition disabled_body (cfg : Config) (w : World) : World * list Event :=
  if is_moving (app w)
  then (goto LoopHead (with_app (set_is_moving false (app w)) w),
        [EvKeyUp (move_key cfg); EvPrint ReleasedLine; EvSleep Ms50])
  else (goto LoopHead w, [EvSleep Ms50]).

(** "Console output": printed when the state differs from the last one
    printed. *)
Definition console_output (new_state : PixelState) (w : World)
    : World * list Event :=
  if bool_decide (Some new_state = last_print_state w) then (w, [])
  else ({| app := app w; pc := pc w; last_print_state := Some new_state |},
        [EvPrint (StateLine new_state (is_moving (app w)))]).

(** The ACTIVE tick, from "Read pixel" to [time.sleep(cfg.poll_rate)].
    The tray update is an observer whose failures are swallowed. *)
Definition active_body (cfg : Config) (sct : Sct) (w : World)
    : World * list Event :=
  let grab := EvGrab (sample_region cfg) in
  match read_pixel_state sct cfg with
  | Raise e => (goto (Finally (Raised e)) w, [grab])
  | Ok new_state =>
      match observe cfg new_state (app w) with
      | (st1, Some _) =>
          let '(st2, keys) := actuate cfg new_state st1 in
          let '(w', lines) := console_output new_state (with_app st2 w) in
          (goto LoopHead w', grab :: keys ++ lines ++ [EvSleep PollRate])
      | (st1, None) =>
          (goto LoopHead (with_app st1 w), [grab; EvSleep PollRate])
      end
  end.

(** The [finally] block: the held flag is read, not cleared. *)
Definition finally_block (cfg : Config) (o : Outcome) (w : World)
    : World * list Event :=
  (goto (Done o) w,
   (if is_moving (app w) then [EvKeyUp (move_key cfg)] else [])
   ++ [EvPrint CleanedUp]).

(** One step of the main thread from its current program point. *)
Definition main_step (cfg : Config) (sct : Sct) (w : World)
    : World * list Event :=
  match pc w with
  | LoopHead =>
      if running (app w) then (goto CalSnapshot w, [])
      else (goto (Finally Returned) w, [])
  | CalSnapshot =>
      if calibrating (app w)
      then (goto CalLoop w, [EvPrint CalibrationBanner])
      else (goto EnSnapshot w, [])
  | CalLoop => calibrate_iteration cfg sct w
  | EnSnapshot =>
      if negb (enabled (app w)) then (goto DisabledBody w, [])
      else (goto ActiveBody w, [])
  | DisabledBody => disabled_body cfg w
  | ActiveBody => active_body cfg sct w
  | Finally o => finally_block cfg o w
  | Done _ => (w, [])
  end.

(** What can happen next: a callback of another thread, a step of the
    main thread against the current screen, or Ctrl-C.  [Interrupt]
    stands for a [KeyboardInterrupt] that reaches the main thread while
    it is at one of the program points above, inside the [try] body (in
    practice, in one of its sleeps).  A [KeyboardInterrupt] raised
    inside a body, between a key call and the write of [is_moving], or
    inside the [finally] block, is not represented: the properties of
    the key on the device are stated for schedules without
    [Interrupt]. *)
Inductive Input :=
| Cmd (c : Command)
| Main (sct : Sct)
| Interrupt.

Definition in_try (p : Pc) : bool :=
  match p with
  | Finally _ | Done _ => false
  | _ => true
  end.

Definition step (cfg : Config) (i : Input) (w : World) : World * list Event :=
  match i with
  | Cmd c => (with_app (apply_command c (app w)) w, [])
  | Main sct => main_step cfg sct w
  | Interrupt =>
      if in_try (pc w) then (goto (Finally Returned) w, []) else (w, [])
  end.

(** A whole interleaving, with the events in the order they happen. *)
Fixpoint run (cfg : Config) (sched : list Input) (w : World)
    : World * list Event :=
  match sched with
  | [] => (w, [])
  | i :: sched' =>
      let '(w1, evs1) := step cfg i w in
      let '(w2, evs2) := run cfg sched' w1 in
      (w2, evs1 ++ evs2)
  end.

(** ** Reading a trace *)

Definition is_key_event (e : Event) : bool :=
  match e with
  | EvKeyDown _ | EvKeyUp _ => true
  | _ => false
  end.

Definition is_grab (e : Event) : bool :=
  match e with
  | EvGrab _ => true
  | _ => false
  end.

(** The key events of a trace, in order. *)
Definition key_events (evs : list Event) : list Event :=
  List.filter is_key_event evs.

(** The first key event of a trace, if any. *)
Definition next_key_event (evs : list Event) : option Event :=
  head (key_events evs).

(** Whether the virtual key is down after a trace, given whether it was
    down before. *)
Definition key_down_after (evs : list Event) (down : bool) : bool :=
  fold_left (fun d e =>
    match e with
    | EvKeyDown _ => true
    | EvKeyUp _ => false
    | _ => d
    end) evs down.

(** The filter fed a sequence of raw readings: the final state and what
    each reading emitted. *)
Fixpoint feed (cfg : Config) (raws : list PixelState) (st : AppState)
    : AppState * list (option PixelState) :=
  match raws with
  | [] => (st, [])
  | raw :: raws' =>
      let '(st1, out) := observe cfg raw st in
      let '(st2, outs) := feed cfg raws' st1 in
      (st2, out :: outs)
  end.

(** ** Vocabulary of the properties *)

(** The three rules of [classify_pixel], as propositions. *)
Definition green_rule (r g : Z) (cfg : Config) : Prop :=
  g > green_threshold cfg /\ r < off_channel_max cfg.

Definition red_rule (r g : Z) (cfg : Config) : Prop :=
  r > red_threshold cfg /\ g < off_channel_max cfg.

Definition black_rule (r g b : Z) : Prop :=
  r < 50 /\ g < 50 /\ b < 50.

(** A configuration with the thresholds of the scenario and nothing else
    fixed. *)
Definition scenario_config (cfg : Config) : Config :=
  {| pixel_x := pixel_x cfg; pixel_y := pixel_y cfg;
     sample_size := sample_size cfg;
     green_threshold := 150; red_threshold := 150; off_channel_max := 100;
     debounce_frames := debounce_frames cfg; move_key := move_key cfg;
     toggle_hotkey := toggle_hotkey cfg; quit_hotkey := quit_hotkey cfg;
     calibrate_hotkey := calibrate_hotkey cfg |}.

(** The channels of a pixel under the BGRA layout the source assumes. *)
Definition blue (px : Pixel) : Z := px0 px.
Definition green (px : Pixel) : Z := px1 px.
Definition red (px : Pixel) : Z := px2 px.

Definition Zsum (l : list Z) : Z := foldr Z.add 0 l.

(** The sum of one channel over every pixel of a screenshot. *)
Definition channel_sum (ch : Pixel -> Z) (img : ScreenShot) : Z :=
  Zsum (map ch (concat img)).

(** An [n] by [n] grid: [n] rows of [n] pixels. *)
Definition is_grid (n : Z) (img : ScreenShot) : Prop :=
  Z.of_nat (length img) = n
  /\ Forall (fun row : list Pixel => Z.of_nat (length row) = n) img.

Definition channel_ok (v : Z) : Prop := 0 <= v <= 255.

Definition pixel_ok (px : Pixel) : Prop :=
  channel_ok (px0 px) /\ channel_ok (px1 px) /\ channel_ok (px2 px).

(** The totals after adding a list of pixels one by one. *)
Definition add_pixels (pxs : list Pixel) (t : Totals) : Totals :=
  fold_left (fun t px => add_pixel px t) pxs t.

(** A 3 by 3 frame whose green channel sums to 1808: 1808 / 9 is 200.9,
    and the sampler reports 200. *)
Definition mostly_green_frame : ScreenShot :=
  let p := {| px0 := 10; px1 := 200; px2 := 10 |} in
  let q := {| px0 := 10; px1 := 208; px2 := 10 |} in
  [[p; p; p]; [p; p; p]; [p; p; q]].




(** Some screens. *)
Definition green_screen : Sct := fun _ => Ok mostly_green_frame.

Definition red_screen : Sct := fun _ =>
  let p := {| px0 := 10; px1 := 10; px2 := 200 |} in
  Ok [[p; p; p]; [p; p; p]; [p; p; p]].

Definition failing_screen : Sct := fun _ => Raise ScreenShotError.


(** Whenever the key is held, the confirmed state is GREEN. *)
Definition held_implies_green (st : AppState) : Prop :=
  is_moving st = true -> current_state st = GREEN.

(** Enable, then two ACTIVE ticks that read GREEN (four main-thread
    steps each). *)
Definition walk_schedule : list Input :=
  Cmd ToggleEnable :: repeat (Main green_screen) 8.

(** The device follows the held flag while [main] runs, and the key is
    up once [main] has ended. *)
Definition key_tracked (w : World) (down : bool) : Prop :=
  match pc w with
  | Done _ => down = false
  | _ => down = is_moving (app w)
  end.

(** The only step that writes the accumulator or the confirmed state is
    the main thread's ACTIVE tick. *)
Definition is_active_tick (i : Input) (w : World) : bool :=
  match i with
  | Main _ => bool_decide (pc w = ActiveBody)
  | _ => false
  end.

(** Two RED ticks confirm RED, one GREEN tick starts a run of GREEN;
    then automation is disabled for one tick and enabled again, and the
    loop comes back to the point where it samples. *)
Definition before_disable : list Input :=
  Cmd ToggleEnable :: repeat (Main red_screen) 8
  ++ repeat (Main green_screen) 4.

Definition disable_and_reenable : list Input :=
  Cmd ToggleEnable :: repeat (Main green_screen) 4
  ++ Cmd ToggleEnable :: repeat (Main green_screen) 3.

(** The main thread enters calibration and the quit command arrives. *)
Definition quit_while_calibrating : list Input :=
  [Cmd ToggleCalibrate; Main green_screen; Main green_screen; Cmd Quit].

(** ** The tray icon *)

(** What [update_icon] gives the icon: the colour of its image and its
    tooltip. *)
Record Icon := { icon_color : string; icon_title : string }.

(** [update_icon]. *)
Definition update_icon (st : AppState) : Icon :=
  if negb (enabled st)
  then {| icon_color := "gray"; icon_title := "WoW AutoWalk: OFF" |}
  else if bool_decide (current_state st = GREEN)
  then {| icon_color := "green"; icon_title := "AutoWalk: MOVING" |}
  else if bool_decide (current_state st = RED)
  then {| icon_color := "red"; icon_title := "AutoWalk: STOPPED" |}
  else {| icon_color := "yellow"; icon_title := "AutoWalk: UNKNOWN" |}.

(** ** Further vocabulary *)

(** A frame of [n] rows of [n] copies of one pixel. *)
Definition uniform_frame (n : nat) (px : Pixel) : ScreenShot :=
  repeat (repeat px n) n.

(** A key trace is well formed from a given key position when no
    key-down comes while the key is down and no key-up while it is up. *)
Fixpoint keys_ok (evs : list Event) (down : bool) : bool :=
  match evs with
  | [] => true
  | EvKeyDown _ :: evs' => negb down && keys_ok evs' true
  | EvKeyUp _ :: evs' => down && keys_ok evs' false
  | _ :: evs' => keys_ok evs' down
  end.

(** An upper bound on the main-thread steps left before [main] has
    ended, once [running] and [calibrating] are both false. *)
Definition steps_to_exit (p : Pc) : nat :=
  match p with
  | CalSnapshot => 5
  | EnSnapshot => 4
  | CalLoop | DisabledBody | ActiveBody => 3
  | LoopHead => 2
  | Finally _ => 1
  | Done _ => 0
  end.

(** The screen never shows anything but [s] to the loop: a sample
    either classifies as [s] or raises. *)
Definition shows (cfg : Config) (s : PixelState) (i : Input) : Prop :=
  match i with
  | Main sct =>
      match read_pixel_state sct cfg with
      | Ok s' => s' = s
      | Raise _ => True
      end
  | _ => True
  end.

(** Whether the sample of one iteration of [calibrate] succeeds. *)
Definition calibration_sample_ok (cfg : Config) (sct : Sct) : bool :=
  match sct (sample_region cfg) with
  | Ok img =>
      if sample_size cfg / 2 <? 0 then false
      else match img_pixel img (Z.to_nat (sample_size cfg / 2))
                   (Z.to_nat (sample_size cfg / 2)) with
           | Ok _ => true
           | Raise _ => false
           end
  | Raise _ => false
  end.

(** The inputs under which the main thread stays in [calibrate]: any
    command but the calibration toggle, and main-thread steps whose
    sample succeeds. *)
Definition keeps_calibrating (cfg : Config) (i : Input) : bool :=
  match i with
  | Cmd ToggleCalibrate => false
  | Cmd _ => true
  | Main sct => calibration_sample_ok cfg sct
  | Interrupt => false
  end.

(** The last state printed, when there is one, is the confirmed state. *)
Definition printed_is_confirmed (w : World) : Prop :=
  last_print_state w = None
  \/ last_print_state w = Some (current_state (app w)).

(** No reading of the stream equals the one before it, [prev] being the
    one before the first. *)
Fixpoint flickers (prev : PixelState) (raws : list PixelState) : Prop :=
  match raws with
  | [] => True
  | raw :: raws' => raw <> prev /\ flickers raw raws'
  end.

(** The inputs that come from the hotkey and tray threads. *)
Definition is_command (i : Input) : bool :=
  match i with
  | Cmd _ => true
  | _ => false
  end.

(** ** Schedules *)

(** A schedule in which no Ctrl-C occurs. *)
Definition interrupt_free (sched : list Input) : bool :=
  forallb (fun i => match i with Interrupt => false | _ => true end) sched.

(** The number of main-thread steps of a schedule. *)
Definition main_steps (sched : list Input) : nat :=
  length (List.filter (fun i => match i with Main _ => true | _ => false end)
            sched).

(** The inputs that leave [enabled] as it is: anything but the enable
    toggle and Ctrl-C. *)
Definition keeps_enabled (i : Input) : bool :=
  match i with
  | Cmd ToggleEnable | Interrupt => false
  | _ => true
  end.

(** The inputs that leave both [enabled] and [calibrating] as they are:
    quit and main-thread steps. *)
Definition keeps_mode (i : Input) : bool :=
  match i with
  | Cmd Quit | Main _ => true
  | _ => false
  end.

(** Whether the key is down on the device, read off the state: the held
    flag while [main] runs, and up once it has ended. *)
Definition key_is_down (w : World) : bool :=
  match pc w with
  | Done _ => false
  | _ => is_moving (app w)
  end.

(** The loop has seen, or will see at its next snapshot, that automation
    is disabled: [enabled] is false and no ACTIVE tick is in flight. *)
Definition disabled_seen (w : World) : Prop :=
  enabled (app w) = false /\ pc w <> ActiveBody.

(** The loop has seen, or will see at its next test, that it must stop:
    [running] is false and no iteration is in flight. *)
Definition stop_seen (w : World) : Prop :=
  running (app w) = false /\ (pc w = LoopHead \/ in_try (pc w) = false).

(** An upper bound on the main-thread steps left before the key is
    released, once automation is seen disabled outside calibration. *)
Definition steps_to_release (w : World) : nat :=
  if key_is_down w
  then match pc w with
       | ActiveBody | CalLoop => 5
       | LoopHead => 4
       | CalSnapshot => 3
       | EnSnapshot => 2
       | DisabledBody | Finally _ => 1
       | Done _ => 0
       end
  else 0.

(** A step whose only possible key event is the key-up that brings the
    key from down to up. *)
Definition only_releases (cfg : Config) (w : World)
    (r : World * list Event) : Prop :=
  key_events (snd r)
  = (if key_is_down w && negb (key_is_down (fst r))
     then [EvKeyUp (move_key cfg)] else [])
  /\ (key_is_down w = false -> key_is_down (fst r) = false).

(** * Properties *)

(** ** The classifier *)

Section Classifier.
Variables (r g b : Z) (cfg : Config).

Lemma classify_green : classify_pixel r g b cfg = GREEN <-> green_rule r g cfg.
Proof.
  unfold classify_pixel, green_rule.
  repeat match goal with
         | |- context [?x >? ?y] => destruct (Z.gtb_spec x y)
         | |- context [?x <? ?y] => destruct (Z.ltb_spec x y)
         end; simpl; split; intros; try discriminate; try lia; auto.
Qed.

Lemma classify_red :
  classify_pixel r g b cfg = RED
  <-> ~ green_rule r g cfg /\ red_rule r g cfg.
Proof.
  unfold classify_pixel, green_rule, red_rule.
  repeat match goal with
         | |- context [?x >? ?y] => destruct (Z.gtb_spec x y)
         | |- context [?x <? ?y] => destruct (Z.ltb_spec x y)
         end; simpl; split; intros; try discriminate; try lia; auto.
Qed.

Lemma classify_black :
  classify_pixel r g b cfg = BLACK
  <-> ~ green_rule r g cfg /\ ~ red_rule r g cfg /\ black_rule r g b.
Proof.
  unfold classify_pixel, green_rule, red_rule, black_rule.
  repeat match goal with
         | |- context [?x >? ?y] => destruct (Z.gtb_spec x y)
         | |- context [?x <? ?y] => destruct (Z.ltb_spec x y)
         end; simpl; split; intros; try discriminate; try lia; auto.
Qed.

Lemma classify_unknown :
  classify_pixel r g b cfg = UNKNOWN
  <-> ~ green_rule r g cfg /\ ~ red_rule r g cfg /\ ~ black_rule r g b.
Proof.
  unfold classify_pixel, green_rule, red_rule, black_rule.
  repeat match goal with
         | |- context [?x >? ?y] => destruct (Z.gtb_spec x y)
         | |- context [?x <? ?y] => destruct (Z.ltb_spec x y)
         end; simpl; split; intros; try discriminate; try lia; auto.
Qed.
End Classifier.

(** C6.  The classifier is total and single-valued: every sample and
    every configuration give exactly one of the four states, chosen by
    the first rule that matches in the order GREEN, RED, BLACK, with
    UNKNOWN when none does.  With thresholds 150/150/100 it sends
    (10,200,10) to GREEN, (200,10,10) to RED, (5,5,5) to BLACK and
    (120,120,120) to UNKNOWN. *)
Theorem classify_pixel_total_rule_order :
  forall (r g b : Z) (cfg : Config),
    (exists! s : PixelState, classify_pixel r g b cfg = s)
    /\ (classify_pixel r g b cfg = GREEN <-> green_rule r g cfg)
    /\ (classify_pixel r g b cfg = RED
        <-> ~ green_rule r g cfg /\ red_rule r g cfg)
    /\ (classify_pixel r g b cfg = BLACK
        <-> ~ green_rule r g cfg /\ ~ red_rule r g cfg /\ black_rule r g b)
    /\ (classify_pixel r g b cfg = UNKNOWN
        <-> ~ green_rule r g cfg /\ ~ red_rule r g cfg /\ ~ black_rule r g b)
    /\ classify_pixel 10 200 10 (scenario_config cfg) = GREEN
    /\ classify_pixel 200 10 10 (scenario_config cfg) = RED
    /\ classify_pixel 5 5 5 (scenario_config cfg) = BLACK
    /\ classify_pixel 120 120 120 (scenario_config cfg) = UNKNOWN.
Proof.
  intros r g b cfg.
  split.
  { exists (classify_pixel r g b cfg). split; [reflexivity | auto]. }
  split; [apply classify_green |].
  split; [apply classify_red |].
  split; [apply classify_black |].
  split; [apply classify_unknown |].
  repeat split.
Qed.

(** The scenario at the defaults of the source. *)
Lemma classify_pixel_total_rule_order_witness :
  classify_pixel 10 200 10 default_config = GREEN
  /\ classify_pixel 200 10 10 default_config = RED
  /\ classify_pixel 5 5 5 default_config = BLACK
  /\ classify_pixel 120 120 120 default_config = UNKNOWN.
Proof.
  pose proof (classify_pixel_total_rule_order 0 0 0 default_config)
    as (_ & _ & _ & _ & _ & Hg & Hr & Hb & Hu).
  exact (conj Hg (conj Hr (conj Hb Hu))).
Defined.

(** ** The sampler *)

Lemma add_pixels_app (p q : list Pixel) (t : Totals) :
  add_pixels (p ++ q) t = add_pixels q (add_pixels p t).
Proof. unfold add_pixels. apply fold_left_app. Qed.

Lemma add_pixels_totals (pxs : list Pixel) : forall t,
  total_r (add_pixels pxs t) = total_r t + Zsum (map red pxs)
  /\ total_g (add_pixels pxs t) = total_g t + Zsum (map green pxs)
  /\ total_b (add_pixels pxs t) = total_b t + Zsum (map blue pxs).
Proof.
  induction pxs as [|px pxs IH]; intros t; simpl.
  - lia.
  - destruct (IH (add_pixel px t)) as (Hr & Hg & Hb).
    fold (add_pixels pxs (add_pixel px t)).
    rewrite Hr, Hg, Hb. unfold red, green, blue. simpl. lia.
Qed.

Lemma Zsum_nonneg (l : list Z) : Forall (fun v => 0 <= v) l -> 0 <= Zsum l.
Proof. induction 1; simpl; lia. Qed.

Section RowLoop.
Variables (img : ScreenShot) (y : nat) (row : list Pixel).
Hypothesis Hrow : img !! y = Some row.

Lemma add_pixel_at_inside (x : nat) (px : Pixel) (t : Totals) :
  row !! x = Some px -> add_pixel_at img x y t = Ok (add_pixel px t).
Proof using Hrow.
  intros Hpx. unfold add_pixel_at, img_pixel. rewrite Hrow, Hpx. reflexivity.
Qed.

(** The inner loop over columns [k, k + m) adds that slice of the row. *)
Lemma row_loop_slice : forall (m k : nat) (t : Totals),
  (k + m <= length row)%nat ->
  for_each (fun x => add_pixel_at img x y) (seq k m) t
  = Ok (add_pixels (take m (drop k row)) t).
Proof using Hrow.
  induction m as [|m IH]; intros k t Hlen; simpl.
  - reflexivity.
  - destruct (lookup_lt_is_Some_2 row k) as [px Hpx]; [lia |].
    rewrite (add_pixel_at_inside k px t Hpx). cbn [mbind Result_bind].
    rewrite IH by lia.
    rewrite (drop_S _ _ _ Hpx). reflexivity.
Qed.

Lemma row_loop_whole (t : Totals) :
  for_each (fun x => add_pixel_at img x y) (seq 0 (length row)) t
  = Ok (add_pixels row t).
Proof using Hrow.
  rewrite row_loop_slice by lia.
  rewrite drop_0, firstn_all. reflexivity.
Qed.
End RowLoop.

(** The outer loop over rows [k, k + m) adds those rows. *)
Lemma grid_loop_slice (img : ScreenShot) (n : nat) :
  Forall (fun row : list Pixel => length row = n) img ->
  forall (m k : nat) (t : Totals),
    (k + m <= length img)%nat ->
    for_each
      (fun y => for_each (fun x => add_pixel_at img x y) (seq 0 n))
      (seq k m) t
    = Ok (add_pixels (concat (take m (drop k img))) t).
Proof.
  intros Hrows.
  induction m as [|m IH]; intros k t Hlen; simpl.
  - reflexivity.
  - destruct (lookup_lt_is_Some_2 img k) as [row Hrow]; [lia |].
    assert (Hn : length row = n).
    { rewrite Forall_forall in Hrows. apply Hrows.
      eapply list_elem_of_lookup_2; eauto. }
    rewrite <- Hn at 1.
    rewrite (row_loop_whole img k row Hrow). simpl.
    rewrite IH by lia.
    rewrite (drop_S _ _ _ Hrow). simpl.
    rewrite add_pixels_app. reflexivity.
Qed.

Lemma sum_sample_grid (cfg : Config) (img : ScreenShot) :
  is_grid (sample_size cfg) img ->
  sum_sample cfg img
  = Ok (add_pixels (concat img) {| total_r := 0; total_g := 0; total_b := 0 |}).
Proof.
  intros [Hlen Hrows]. unfold sum_sample, range.
  rewrite <- Hlen, Nat2Z.id.
  rewrite (grid_loop_slice img (length img)).
  - rewrite drop_0, firstn_all. reflexivity.
  - eapply Forall_impl; [exact Hrows |]. simpl. intros row Hr. lia.
  - lia.
Qed.

Lemma channel_sum_nonneg (ch : Pixel -> Z) (img : ScreenShot) :
  (forall px, pixel_ok px -> 0 <= ch px) ->
  Forall (Forall pixel_ok) img -> 0 <= channel_sum ch img.
Proof.
  intros Hch Himg. unfold channel_sum. apply Zsum_nonneg.
  induction Himg as [|row rows Hrow _ IH]; simpl.
  - constructor.
  - rewrite map_app. apply Forall_app. split; [| exact IH].
    induction Hrow; simpl; constructor; auto.
Qed.

(** C7.  On an N by N grid of pixels with channels in 0..255 (N at least
    1), the sampler's averages are, per channel, the sum of that channel
    over all the pixels divided by N*N with truncation; red is read from
    index 2, green from index 1 and blue from index 0 of each pixel, and
    the classified state is that of this triple. *)
Theorem average_sample_truncated_mean :
  forall (cfg : Config) (img : ScreenShot),
    1 <= sample_size cfg ->
    is_grid (sample_size cfg) img ->
    Forall (Forall pixel_ok) img ->
    let n2 := sample_size cfg * sample_size cfg in
    let avg_r := channel_sum red img ÷ n2 in
    let avg_g := channel_sum green img ÷ n2 in
    let avg_b := channel_sum blue img ÷ n2 in
    Z.of_nat (length (concat img)) = n2
    /\ average_sample cfg img = Ok (avg_r, avg_g, avg_b)
    /\ forall sct : Sct,
         sct (sample_region cfg) = Ok img ->
         read_pixel_state sct cfg = Ok (classify_pixel avg_r avg_g avg_b cfg).
Proof.
  intros cfg img HN Hgrid Hok n2 avg_r avg_g avg_b.
  assert (Hn2 : 0 < n2) by (unfold n2; nia).
  assert (Havg : average_sample cfg img = Ok (avg_r, avg_g, avg_b)).
  { unfold average_sample. rewrite (sum_sample_grid cfg img Hgrid).
    cbn [mbind Result_bind].
    destruct (add_pixels_totals (concat img)
                {| total_r := 0; total_g := 0; total_b := 0 |})
      as (Hr & Hg & Hb).
    rewrite Hr, Hg, Hb. simpl total_r. simpl total_g. simpl total_b.
    unfold floordiv. fold n2.
    destruct (Z.eqb_spec n2 0) as [E|_]; [lia |].
    cbn [mbind Result_bind].
    unfold avg_r, avg_g, avg_b.
    rewrite !Z.quot_div_nonneg; try lia.
    - reflexivity.
    - apply channel_sum_nonneg; [| exact Hok]. intros px (H0 & _ & _). apply H0.
    - apply channel_sum_nonneg; [| exact Hok]. intros px (_ & H1 & _). apply H1.
    - apply channel_sum_nonneg; [| exact Hok]. intros px (_ & _ & H2). apply H2. }
  split; [| split].
  - destruct Hgrid as [Hlen Hrows]. unfold n2. rewrite <- Hlen at 1.
    clear - Hrows. revert Hrows. generalize (sample_size cfg). intros n Hrows.
    induction Hrows as [|row rows Hrow _ IH]; simpl.
    + lia.
    + rewrite length_app. lia.
  - exact Havg.
  - intros sct Hsct. unfold read_pixel_state. rewrite Hsct.
    cbn [mbind Result_bind]. rewrite Havg. reflexivity.
Qed.

Lemma average_sample_truncated_mean_witness :
  average_sample default_config mostly_green_frame = Ok (10, 200, 10)
  /\ read_pixel_state (fun _ => Ok mostly_green_frame) default_config
     = Ok GREEN.
Proof.
  assert (H1 : 1 <= sample_size default_config) by (simpl; lia).
  assert (H2 : is_grid (sample_size default_config) mostly_green_frame).
  { split; [reflexivity | repeat constructor]. }
  assert (H3 : Forall (Forall pixel_ok) mostly_green_frame).
  { repeat constructor; unfold channel_ok; simpl; lia. }
  destruct (average_sample_truncated_mean
              default_config mostly_green_frame H1 H2 H3) as (_ & Havg & Hread).
  split.
  - exact Havg.
  - exact (Hread (fun _ => Ok mostly_green_frame) eq_refl).
Defined.

(** With [sample_size = 0] both loops are empty and the first division
    raises. *)
Example average_sample_zero_size :
  average_sample
    {| pixel_x := 0; pixel_y := 0; sample_size := 0;
       green_threshold := 150; red_threshold := 150; off_channel_max := 100;
       debounce_frames := 2; move_key := "w"; toggle_hotkey := "f6";
       quit_hotkey := "f7"; calibrate_hotkey := "f8" |} []
  = Raise ZeroDivisionError.
Proof. reflexivity. Qed.

(** ** The debounce filter *)

Lemma feed_app (cfg : Config) (a b : list PixelState) : forall st,
  feed cfg (a ++ b) st
  = (fst (feed cfg b (fst (feed cfg a st))),
     snd (feed cfg a st) ++ snd (feed cfg b (fst (feed cfg a st)))).
Proof.
  induction a as [|x a IH]; intros st; simpl.
  - destruct (feed cfg b st); reflexivity.
  - destruct (observe cfg x st) as [st1 out] eqn:E1.
    rewrite IH.
    destruct (feed cfg a st1) as [st2 outs]. reflexivity.
Qed.


Lemma observe_accumulator (cfg : Config) (raw : PixelState) (st : AppState) :
  pending_state (fst (observe cfg raw st)) = raw
  /\ debounce_count (fst (observe cfg raw st))
     = if bool_decide (raw = pending_state st)
       then debounce_count st + 1 else 1.
Proof.
  unfold observe, debounce.
  destruct (bool_decide_reflect (raw = pending_state st)) as [E|E];
    match goal with |- context [confirms ?c ?r ?s] =>
      destruct (confirms c r s) end; simpl; auto.
Qed.




Lemma observe_emits (cfg : Config) (raw : PixelState) (st : AppState) :
  (snd (observe cfg raw st) = Some raw
   <-> debounce_frames cfg <= debounce_count (fst (observe cfg raw st))
       /\ raw <> current_state st)
  /\ current_state (fst (observe cfg raw st))
     = match snd (observe cfg raw st) with
       | Some s => s
       | None => current_state st
       end.
Proof.
  unfold observe, confirms, debounce.
  destruct (bool_decide_reflect (raw = pending_state st)) as [E|E]; simpl;
    destruct (bool_decide_reflect (raw = current_state st)) as [F|F]; simpl;
    match goal with |- context [?a >=? ?b] =>
      destruct (Z.geb_spec a b) as [G|G] end; simpl;
    (split; [split; [intros K; first [discriminate | split; [lia | auto]]
                    | intros [K1 K2]; try reflexivity; try lia; tauto]
            | reflexivity]).
Qed.




(** ** Actuation *)

Lemma not_green_in_rest (s : PixelState) :
  s <> GREEN <-> s ∈ [RED; BLACK; UNKNOWN].
Proof.
  rewrite !elem_of_cons, elem_of_nil.
  destruct s; intuition congruence.
Qed.

(** C8.  Actuation is idempotent with respect to the held flag: applied a
    second time with the same confirmed state it issues no key event and
    changes nothing.  It issues a key-down exactly when the state is GREEN
    and the key is not held, a key-up exactly when the state is RED,
    BLACK or UNKNOWN and the key is held, and no key event otherwise;
    it touches no field but the held flag. *)
Theorem actuate_idempotent :
  forall (cfg : Config) (s : PixelState) (st : AppState),
    let st1 := fst (actuate cfg s st) in
    let evs := snd (actuate cfg s st) in
    actuate cfg s st1 = (st1, [])
    /\ (evs = [EvKeyDown (move_key cfg)]
        <-> s = GREEN /\ is_moving st = false)
    /\ (evs = [EvKeyUp (move_key cfg)]
        <-> s ∈ [RED; BLACK; UNKNOWN] /\ is_moving st = true)
    /\ (evs = []
        <-> ~ (s = GREEN /\ is_moving st = false)
            /\ ~ (s ∈ [RED; BLACK; UNKNOWN] /\ is_moving st = true))
    /\ is_moving st1 = bool_decide (s = GREEN)
    /\ st1 = set_is_moving (is_moving st1) st.
Proof.
  intros cfg s st st1 evs. subst st1 evs.
  destruct st as [en ru cur mov cal cnt pend].
  rewrite !elem_of_cons, elem_of_nil.
  destruct s, mov; vm_compute actuate; cbn;
    intuition (discriminate || congruence).
Qed.

(** Held on GREEN stays held without an event; released on RED stays
    released without an event. *)
Lemma actuate_idempotent_witness :
  actuate default_config GREEN
    (fst (actuate default_config GREEN init_state))
  = (set_is_moving true init_state, [])
  /\ snd (actuate default_config GREEN init_state) = [EvKeyDown "w"]
  /\ snd (actuate default_config RED (set_is_moving true init_state))
     = [EvKeyUp "w"].
Proof.
  destruct (actuate_idempotent default_config GREEN init_state)
    as (Hidem & Hdown & _).
  destruct (actuate_idempotent default_config RED
              (set_is_moving true init_state)) as (_ & _ & Hup & _).
  split; [exact Hidem |].
  split.
  - apply Hdown. split; reflexivity.
  - apply Hup. split; [| reflexivity].
    apply list_elem_of_here.
Defined.

(** ** The control loop *)

Lemma run_app (cfg : Config) (a b : list Input) : forall w,
  run cfg (a ++ b) w
  = (fst (run cfg b (fst (run cfg a w))),
     snd (run cfg a w) ++ snd (run cfg b (fst (run cfg a w)))).
Proof.
  induction a as [|i a IH]; intros w; simpl.
  - destruct (run cfg b w); reflexivity.
  - destruct (step cfg i w) as [w1 evs1].
    rewrite IH. destruct (run cfg a w1) as [w2 evs2]. simpl.
    rewrite app_assoc. reflexivity.
Qed.

Lemma run_snoc (cfg : Config) (sched : list Input) (i : Input) (w : World) :
  run cfg (sched ++ [i]) w
  = (fst (step cfg i (fst (run cfg sched w))),
     snd (run cfg sched w) ++ snd (step cfg i (fst (run cfg sched w)))).
Proof.
  rewrite run_app. simpl.
  destruct (step cfg i (fst (run cfg sched w))) as [w1 evs1]. simpl.
  rewrite app_nil_r. reflexivity.
Qed.



(** *** What one step can do *)

Lemma actuate_cases (cfg : Config) (s : PixelState) (st : AppState) :
  (s = GREEN /\ is_moving st = false
   /\ actuate cfg s st = (set_is_moving true st, [EvKeyDown (move_key cfg)]))
  \/ (s <> GREEN /\ is_moving st = true
      /\ actuate cfg s st = (set_is_moving false st, [EvKeyUp (move_key cfg)]))
  \/ (is_moving st = bool_decide (s = GREEN) /\ actuate cfg s st = (st, [])).
Proof.
  unfold actuate.
  destruct (bool_decide_reflect (s = GREEN)) as [->|Hs].
  - destruct (is_moving st); simpl; auto.
  - rewrite (bool_decide_eq_true_2 (s ∈ [RED; BLACK; UNKNOWN]))
      by (apply not_green_in_rest; exact Hs).
    destruct (is_moving st); simpl; auto.
Qed.

Lemma debounce_keeps (s : PixelState) (st : AppState) :
  enabled (debounce s st) = enabled st
  /\ running (debounce s st) = running st
  /\ calibrating (debounce s st) = calibrating st
  /\ is_moving (debounce s st) = is_moving st
  /\ current_state (debounce s st) = current_state st.
Proof.
  unfold debounce. destruct (bool_decide (s = pending_state st)); simpl; auto.
Qed.

Lemma observe_cases (cfg : Config) (s : PixelState) (st : AppState) :
  (observe cfg s st = (debounce s st, None)
   /\ confirms cfg s (debounce s st) = false)
  \/ (observe cfg s st = (set_current_state s (debounce s st), Some s)
      /\ confirms cfg s (debounce s st) = true
      /\ s <> current_state st).
Proof.
  unfold observe. destruct (confirms cfg s (debounce s st)) eqn:E; auto.
  right. repeat split. unfold confirms in E.
  apply andb_true_iff in E as [_ E]. apply negb_true_iff in E.
  apply bool_decide_eq_false in E.
  destruct (debounce_keeps s st) as (_ & _ & _ & _ & Hc).
  rewrite Hc in E. exact E.
Qed.

Lemma key_events_app (a b : list Event) :
  key_events (a ++ b) = key_events a ++ key_events b.
Proof. unfold key_events. apply List.filter_app. Qed.

Lemma console_output_keeps (s : PixelState) (w : World) :
  app (fst (console_output s w)) = app w
  /\ pc (fst (console_output s w)) = pc w
  /\ key_events (snd (console_output s w)) = []
  /\ List.filter is_grab (snd (console_output s w)) = [].
Proof.
  unfold console_output.
  destruct (bool_decide (Some s = last_print_state w)); simpl; auto.
Qed.

Lemma actuate_only_keys (cfg : Config) (s : PixelState) (st : AppState) :
  key_events (snd (actuate cfg s st)) = snd (actuate cfg s st).
Proof.
  destruct (actuate_cases cfg s st) as [(_ & _ & E)|[(_ & _ & E)|(_ & E)]];
    rewrite E; reflexivity.
Qed.

(** The three ways an ACTIVE tick can go: the sampling raises; the
    reading confirms nothing; the reading confirms a transition, which
    is then acted upon. *)
Lemma active_body_cases (cfg : Config) (sct : Sct) (w : World) :
  (exists e,
      read_pixel_state sct cfg = Raise e
      /\ active_body cfg sct w
         = (goto (Finally (Raised e)) w, [EvGrab (sample_region cfg)]))
  \/ (exists s,
        read_pixel_state sct cfg = Ok s
        /\ snd (observe cfg s (app w)) = None
        /\ active_body cfg sct w
           = (goto LoopHead (with_app (debounce s (app w)) w),
              [EvGrab (sample_region cfg); EvSleep PollRate]))
  \/ (exists s,
        read_pixel_state sct cfg = Ok s
        /\ snd (observe cfg s (app w)) = Some s
        /\ s <> current_state (app w)
        /\ let st1 := set_current_state s (debounce s (app w)) in
           app (fst (active_body cfg sct w)) = fst (actuate cfg s st1)
           /\ pc (fst (active_body cfg sct w)) = LoopHead
           /\ key_events (snd (active_body cfg sct w))
              = snd (actuate cfg s st1)).
Proof.
  unfold active_body.
  destruct (read_pixel_state sct cfg) as [s|e]; [| left; eauto].
  right.
  destruct (observe_cases cfg s (app w)) as [[E _]|(E & _ & Hne)]; rewrite E.
  - left. exists s. rewrite E. auto.
  - right. exists s. rewrite E. repeat split; auto.
    all: destruct (actuate cfg s (set_current_state s (debounce s (app w))))
           as [st2 keys] eqn:Ea;
         pose proof (actuate_only_keys cfg s
                       (set_current_state s (debounce s (app w)))) as Hk;
         rewrite Ea in Hk; simpl in Hk;
         destruct (console_output_keeps s (with_app st2 w))
           as (Ha & Hp & Hkc & _);
         destruct (console_output s (with_app st2 w)) as [w' lines];
         simpl in *; auto.
    rewrite key_events_app, key_events_app, Hkc, Hk. simpl.
    rewrite app_nil_r. reflexivity.
Qed.

Lemma actuate_held_green (cfg : Config) (s : PixelState) (st : AppState) :
  current_state st = s ->
  held_implies_green (fst (actuate cfg s st)).
Proof.
  intros Hc.
  destruct (actuate_cases cfg s st) as [(Hs & _ & E)|[(_ & _ & E)|(Hm & E)]];
    rewrite E; unfold held_implies_green; simpl.
  - congruence.
  - discriminate.
  - rewrite Hm. intros Hb. apply bool_decide_eq_true in Hb. congruence.
Qed.

Lemma step_held_green (cfg : Config) (i : Input) (w : World) :
  held_implies_green (app w) ->
  held_implies_green (app (fst (step cfg i w))).
Proof.
  intros Hinv. destruct i as [c|sct|]; simpl.
  - destruct c; exact Hinv.
  - unfold main_step. destruct (pc w) eqn:Hpc.
    + destruct (running (app w)); exact Hinv.
    + destruct (calibrating (app w)); exact Hinv.
    + unfold calibrate_iteration.
      destruct (negb (calibrating (app w))); [exact Hinv |].
      match goal with |- context [match ?x with Ok _ => _ | Raise _ => _ end] =>
        destruct x end; exact Hinv.
    + destruct (negb (enabled (app w))); exact Hinv.
    + unfold disabled_body.
      destruct (is_moving (app w)) eqn:Hm; [| exact Hinv].
      unfold held_implies_green. simpl. discriminate.
    + destruct (active_body_cases cfg sct w)
        as [(e & _ & E)|[(s & _ & _ & E)|(s & _ & _ & _ & Ha & _)]].
      * rewrite E. exact Hinv.
      * rewrite E. simpl.
        destruct (debounce_keeps s (app w)) as (_ & _ & _ & Hm & Hc).
        unfold held_implies_green. rewrite Hm, Hc. exact Hinv.
      * cbv zeta in Ha. rewrite Ha.
        apply actuate_held_green. reflexivity.
    + exact Hinv.
    + exact Hinv.
  - destruct (in_try (pc w)); exact Hinv.
Qed.

(** A key-down can only come from an ACTIVE tick that confirms GREEN. *)
Lemma step_key_down (cfg : Config) (i : Input) (w : World) (key : string) :
  In (EvKeyDown key) (key_events (snd (step cfg i w))) ->
  pc w = ActiveBody
  /\ (exists sct, i = Main sct /\ read_pixel_state sct cfg = Ok GREEN)
  /\ snd (observe cfg GREEN (app w)) = Some GREEN
  /\ current_state (app w) <> GREEN
  /\ is_moving (app w) = false
  /\ current_state (app (fst (step cfg i w))) = GREEN
  /\ is_moving (app (fst (step cfg i w))) = true.
Proof.
  destruct i as [c|sct|]; simpl.
  - intros [].
  - unfold main_step. destruct (pc w) eqn:Hpc.
    + destruct (running (app w)); intros [].
    + destruct (calibrating (app w)); intros [].
    + unfold calibrate_iteration.
      destruct (negb (calibrating (app w))); [intros [] |].
      match goal with |- context [match ?x with Ok _ => _ | Raise _ => _ end] =>
        destruct x end; intros [].
    + destruct (negb (enabled (app w))); intros [].
    + unfold disabled_body.
      destruct (is_moving (app w)); simpl; intros H;
        repeat (destruct H as [H|H]; [discriminate |]); destruct H.
    + destruct (active_body_cases cfg sct w)
        as [(e & _ & E)|[(s & _ & _ & E)|(s & Hr & Ho & Hne & Ha & _ & Hk)]].
      * rewrite E. intros [].
      * rewrite E. intros [].
      * cbv zeta in Ha, Hk. rewrite Hk, Ha.
        destruct (actuate_cases cfg s
                    (set_current_state s (debounce s (app w))))
          as [(Hs & Hm & E)|[(_ & _ & E)|(_ & E)]]; rewrite E; simpl.
        -- subst s. intros _.
           destruct (debounce_keeps GREEN (app w)) as (_ & _ & _ & Hm' & _).
           simpl in Hm. rewrite Hm' in Hm.
           repeat split; eauto.
        -- intros [H|[]]; discriminate.
        -- intros [].
    + unfold finally_block. simpl.
      destruct (is_moving (app w)); simpl; intros H;
        repeat (destruct H as [H|H]; [discriminate |]); destruct H.
    + intros [].
  - destruct (in_try (pc w)); intros [].
Qed.

Lemma run_held_green (cfg : Config) (sched : list Input) :
  held_implies_green (app (fst (run cfg sched init_world))).
Proof.
  induction sched as [|i sched IH] using rev_ind.
  - simpl. unfold held_implies_green. simpl. discriminate.
  - rewrite run_snoc. simpl. apply step_held_green. exact IH.
Qed.

(** C10.  From the initial state (disabled, key not held, confirmed state
    UNKNOWN), after any interleaving of loop steps and commands: if the
    held flag is set then the confirmed state is GREEN; and a step issues
    a key-down only as an ACTIVE tick that confirms a transition to
    GREEN, from a state that was not GREEN and with the key not held. *)
Theorem held_only_while_green_confirmed :
  forall (cfg : Config) (sched : list Input),
    let w := fst (run cfg sched init_world) in
    (is_moving (app w) = true -> current_state (app w) = GREEN)
    /\ forall (i : Input) (key : string),
         In (EvKeyDown key) (snd (step cfg i w)) ->
         pc w = ActiveBody
         /\ snd (observe cfg GREEN (app w)) = Some GREEN
         /\ current_state (app w) <> GREEN
         /\ is_moving (app w) = false
         /\ current_state (app (fst (step cfg i w))) = GREEN.
Proof.
  intros cfg sched w. split.
  - exact (run_held_green cfg sched).
  - intros i key Hin.
    assert (Hk : In (EvKeyDown key) (key_events (snd (step cfg i w)))).
    { unfold key_events. apply List.filter_In. split; [exact Hin | reflexivity]. }
    destruct (step_key_down cfg i w key Hk) as (H1 & _ & H3 & H4 & H5 & H6 & _).
    auto.
Qed.

Lemma held_only_while_green_confirmed_witness :
  is_moving (app (fst (run default_config walk_schedule init_world))) = true
  /\ current_state (app (fst (run default_config walk_schedule init_world)))
     = GREEN.
Proof.
  split.
  - vm_compute. reflexivity.
  - apply (held_only_while_green_confirmed default_config walk_schedule).
    vm_compute. reflexivity.
Defined.

(** *** The key on the device *)

Lemma key_down_after_app (a b : list Event) (d : bool) :
  key_down_after (a ++ b) d = key_down_after b (key_down_after a d).
Proof. unfold key_down_after. apply fold_left_app. Qed.

Lemma key_down_after_key_events (evs : list Event) : forall d,
  key_down_after (key_events evs) d = key_down_after evs d.
Proof.
  induction evs as [|e evs IH]; intros d; [reflexivity |].
  destruct e; simpl; apply IH.
Qed.

Lemma actuate_key_tracked (cfg : Config) (s : PixelState) (st : AppState)
    (d : bool) :
  d = is_moving st ->
  key_down_after (snd (actuate cfg s st)) d
  = is_moving (fst (actuate cfg s st)).
Proof.
  intros ->.
  destruct (actuate_cases cfg s st) as [(_ & _ & E)|[(_ & _ & E)|(_ & E)]];
    rewrite E; reflexivity.
Qed.

Lemma step_key_tracked (cfg : Config) (i : Input) (w : World) (d : bool) :
  key_tracked w d ->
  key_tracked (fst (step cfg i w)) (key_down_after (snd (step cfg i w)) d).
Proof.
  unfold key_tracked. intros Ht. destruct i as [c|sct|]; simpl.
  - destruct (pc w), c; exact Ht.
  - unfold main_step. destruct (pc w) eqn:Hpc.
    + destruct (running (app w)); simpl; exact Ht.
    + destruct (calibrating (app w)); simpl; exact Ht.
    + unfold calibrate_iteration.
      destruct (negb (calibrating (app w))); [simpl; exact Ht |].
      match goal with |- context [match ?x with Ok _ => _ | Raise _ => _ end] =>
        destruct x end; simpl; rewrite ?Hpc; exact Ht.
    + destruct (negb (enabled (app w))); simpl; exact Ht.
    + unfold disabled_body.
      destruct (is_moving (app w)) eqn:Hm; simpl; congruence.
    + destruct (active_body_cases cfg sct w)
        as [(e & _ & E)|[(s & _ & _ & E)|(s & _ & _ & _ & Ha & Hp & Hk)]].
      * rewrite E. simpl. exact Ht.
      * rewrite E. simpl.
        destruct (debounce_keeps s (app w)) as (_ & _ & _ & Hm & _).
        congruence.
      * cbv zeta in Ha, Hk. rewrite Hp, Ha.
        rewrite <- key_down_after_key_events, Hk.
        apply actuate_key_tracked. simpl.
        destruct (debounce_keeps s (app w)) as (_ & _ & _ & Hm & _).
        congruence.
    + unfold finally_block. simpl.
      rewrite key_down_after_app.
      destruct (is_moving (app w)); simpl; congruence.
    + simpl. rewrite Hpc. exact Ht.
  - destruct (in_try (pc w)) eqn:Hin; simpl.
    + destruct (pc w); try discriminate; exact Ht.
    + exact Ht.
Qed.

Lemma run_key_tracked (cfg : Config) (sched : list Input) :
  key_tracked (fst (run cfg sched init_world))
    (key_down_after (snd (run cfg sched init_world)) false).
Proof.
  induction sched as [|i sched IH] using rev_ind.
  - reflexivity.
  - rewrite run_snoc. simpl. rewrite key_down_after_app.
    apply step_key_tracked. exact IH.
Qed.

(** The steps that act on an observed [enabled = false] or leave the
    loop: the only key event is a key-up, issued exactly when the key is
    held. *)
Lemma release_step (cfg : Config) (sct : Sct) (w : World) :
  pc w = DisabledBody \/ (exists o, pc w = Finally o) ->
  key_events (snd (step cfg (Main sct) w))
  = if is_moving (app w) then [EvKeyUp (move_key cfg)] else [].
Proof.
  simpl. unfold main_step. intros [Hpc|[o Hpc]]; rewrite Hpc.
  - unfold disabled_body. destruct (is_moving (app w)); reflexivity.
  - unfold finally_block. simpl. destruct (is_moving (app w)); reflexivity.
Qed.

(** C1 as stated fails.  The loop has snapshotted [enabled = true] and
    is about to sample; the key is not held.  The toggle callback then
    sets [enabled] to false, and the tick, completing on its snapshot,
    confirms GREEN: the next key event after the disable is a key-down,
    and the key is held although automation is disabled.  The same
    happens when [running] is set to false after the loop test. *)
Lemma key_down_after_disable_mid_tick :
  let prefix := Cmd ToggleEnable :: repeat (Main green_screen) 7 in
  let before := fst (run default_config prefix init_world) in
  let disabled := fst (step default_config (Cmd ToggleEnable) before) in
  let stopped := fst (step default_config (Cmd Quit) before) in
  pc before = ActiveBody
  /\ enabled (app before) = true /\ enabled (app disabled) = false
  /\ is_moving (app disabled) = false
  /\ next_key_event (snd (step default_config (Main green_screen) disabled))
     = Some (EvKeyDown "w")
  /\ is_moving
       (app (fst (step default_config (Main green_screen) disabled))) = true
  /\ running (app before) = true /\ running (app stopped) = false
  /\ is_moving (app stopped) = false
  /\ next_key_event (snd (step default_config (Main green_screen) stopped))
     = Some (EvKeyDown "w").
Proof. vm_compute. repeat split. Qed.

(** *** Capture errors *)

(** Once the main thread has left the [try] body it never samples again
    and keeps the outcome it left with. *)
Lemma run_outside_try (cfg : Config) (o : Outcome) (sched : list Input) :
  forall w : World,
    pc w = Finally o \/ pc w = Done o ->
    (pc (fst (run cfg sched w)) = Finally o
     \/ pc (fst (run cfg sched w)) = Done o)
    /\ List.filter is_grab (snd (run cfg sched w)) = [].
Proof.
  induction sched as [|i sched IH]; intros w Hpc; simpl.
  - auto.
  - assert (Hstep : (pc (fst (step cfg i w)) = Finally o
                     \/ pc (fst (step cfg i w)) = Done o)
                    /\ List.filter is_grab (snd (step cfg i w)) = []).
    { destruct i as [c|sct|]; simpl.
      - auto.
      - unfold main_step, finally_block.
        destruct Hpc as [Hpc|Hpc]; rewrite Hpc; simpl.
        + destruct (is_moving (app w)); auto.
        + auto.
      - destruct Hpc as [Hpc|Hpc]; rewrite Hpc; simpl; rewrite Hpc; auto. }
    destruct Hstep as [Hpc1 Hg1].
    destruct (step cfg i w) as [w1 evs1]. simpl in Hpc1, Hg1.
    destruct (IH w1 Hpc1) as [Hpc2 Hg2].
    destruct (run cfg sched w1) as [w2 evs2]. simpl in *.
    split; [exact Hpc2 |].
    rewrite List.filter_app, Hg1, Hg2. reflexivity.
Qed.

(** C3, as the code has it.  When the frame-grabber raises during an
    ACTIVE tick, the tick ends there: the grab is its only event and the
    session state is unchanged.  The loop does not catch the error: the
    main thread goes to the cleanup, which issues a key-up exactly when
    the key is held, and [main] ends with that error; whatever happens
    afterwards, the main thread never re-enters the loop and no further
    grab is made. *)
Theorem capture_error_ends_loop :
  forall (cfg : Config) (sct : Sct) (w : World) (e : Exn),
    pc w = ActiveBody ->
    sct (sample_region cfg) = Raise e ->
    let w1 := fst (step cfg (Main sct) w) in
    step cfg (Main sct) w
    = (goto (Finally (Raised e)) w, [EvGrab (sample_region cfg)])
    /\ (forall sct' : Sct,
          step cfg (Main sct') w1
          = (goto (Done (Raised e)) w,
             (if is_moving (app w) then [EvKeyUp (move_key cfg)] else [])
             ++ [EvPrint CleanedUp]))
    /\ forall sched : list Input,
         in_try (pc (fst (run cfg sched w1))) = false
         /\ List.filter is_grab (snd (run cfg sched w1)) = [].
Proof.
  intros cfg sct w e Hpc Hgrab w1.
  assert (Hstep : step cfg (Main sct) w
                  = (goto (Finally (Raised e)) w,
                     [EvGrab (sample_region cfg)])).
  { simpl. unfold main_step. rewrite Hpc.
    unfold active_body, read_pixel_state. rewrite Hgrab. reflexivity. }
  subst w1. rewrite Hstep. simpl.
  split; [reflexivity |].
  split; [reflexivity |].
  intros sched.
  destruct (run_outside_try cfg (Raised e) sched
              (goto (Finally (Raised e)) w)) as [Hout Hg].
  { left. reflexivity. }
  split; [| exact Hg].
  destruct Hout as [E|E]; rewrite E; reflexivity.
Qed.

Lemma capture_error_ends_loop_witness :
  let w := fst (run default_config walk_schedule init_world) in
  let w' := fst (run default_config
                   (repeat (Main green_screen) 3 ++ [Main failing_screen]) w) in
  pc w' = Finally (Raised ScreenShotError)
  /\ app w' = app w
  /\ snd (step default_config (Main green_screen) w')
     = [EvKeyUp "w"; EvPrint CleanedUp].
Proof.
  intros w w'.
  set (w3 := fst (run default_config (repeat (Main green_screen) 3) w)).
  assert (Hpc : pc w3 = ActiveBody) by (vm_compute; reflexivity).
  destruct (capture_error_ends_loop default_config failing_screen w3
              ScreenShotError Hpc eq_refl) as (Hstep & Hfin & _).
  assert (Hw' : w' = fst (step default_config (Main failing_screen) w3)).
  { unfold w', w3. rewrite run_snoc. reflexivity. }
  rewrite Hw'. rewrite (Hfin green_screen). rewrite Hstep.
  split; [reflexivity |].
  split; vm_compute; reflexivity.
Defined.

(** C3 as stated fails.  Automation is enabled and a grab fails during
    an ACTIVE tick: the main thread goes to the cleanup and ends with
    the error; five more steps against a working screen bring no retry
    and no grab. *)
Lemma capture_error_is_not_retried :
  let sched := Cmd ToggleEnable :: repeat (Main green_screen) 3
               ++ [Main failing_screen] in
  let w := fst (run default_config sched init_world) in
  let later := run default_config (repeat (Main green_screen) 5) w in
  pc w = Finally (Raised ScreenShotError)
  /\ pc (fst later) = Done (Raised ScreenShotError)
  /\ List.filter is_grab (snd later) = [].
Proof. vm_compute. repeat split. Qed.

(** *** Disable and re-enable *)

Lemma idle_step_keeps_filter (cfg : Config) (i : Input) (w : World) :
  is_active_tick i w = false ->
  pending_state (app (fst (step cfg i w))) = pending_state (app w)
  /\ debounce_count (app (fst (step cfg i w))) = debounce_count (app w)
  /\ current_state (app (fst (step cfg i w))) = current_state (app w).
Proof.
  destruct i as [c|sct|]; simpl.
  - intros _. destruct c; auto.
  - intros Hidle. apply bool_decide_eq_false in Hidle.
    unfold main_step. destruct (pc w); try congruence.
    + destruct (running (app w)); auto.
    + destruct (calibrating (app w)); auto.
    + unfold calibrate_iteration.
      destruct (negb (calibrating (app w))); [auto |].
      match goal with |- context [match ?x with Ok _ => _ | Raise _ => _ end] =>
        destruct x end; auto.
    + destruct (negb (enabled (app w))); auto.
    + unfold disabled_body. destruct (is_moving (app w)); auto.
    + auto.
    + auto.
  - intros _. destruct (in_try (pc w)); auto.
Qed.

(** C4, as the code has it.  Disabling and re-enabling reset nothing:
    every step other than an ACTIVE tick (commands, the disabled branch,
    calibration, the snapshots) leaves the pending state, the count and
    the confirmed state as they were.  So the first sample after
    re-enable confirms a transition at once when it equals the pending
    state carried over, the carried count is at least
    [debounce_frames - 1], and it differs from the confirmed state. *)
Theorem accumulator_survives_disable :
  forall (cfg : Config) (i : Input) (w : World),
    (is_active_tick i w = false ->
     pending_state (app (fst (step cfg i w))) = pending_state (app w)
     /\ debounce_count (app (fst (step cfg i w))) = debounce_count (app w)
     /\ current_state (app (fst (step cfg i w))) = current_state (app w))
    /\ forall (sct : Sct) (raw : PixelState),
         i = Main sct ->
         pc w = ActiveBody ->
         read_pixel_state sct cfg = Ok raw ->
         pending_state (app w) = raw ->
         debounce_frames cfg <= debounce_count (app w) + 1 ->
         raw <> current_state (app w) ->
         current_state (app (fst (step cfg i w))) = raw
         /\ debounce_count (app (fst (step cfg i w)))
            = debounce_count (app w) + 1.
Proof.
  intros cfg i w. split; [apply idle_step_keeps_filter |].
  intros sct raw -> Hpc Hread Hpend Hcount Hne.
  simpl. unfold main_step. rewrite Hpc.
  assert (Hdeb : debounce raw (app w)
                 = set_debounce_count (debounce_count (app w) + 1) (app w)).
  { unfold debounce. rewrite bool_decide_eq_true_2 by congruence. reflexivity. }
  assert (Hconf : confirms cfg raw (debounce raw (app w)) = true).
  { rewrite Hdeb. unfold confirms. simpl.
    rewrite (bool_decide_eq_false_2 _ Hne).
    destruct (Z.geb_spec (debounce_count (app w) + 1) (debounce_frames cfg));
      [reflexivity | lia]. }
  destruct (active_body_cases cfg sct w)
    as [(e & Hr & _)|[(s & Hr & Ho & _)|(s & Hr & _ & _ & Ha & _)]];
    rewrite Hread in Hr; try discriminate; injection Hr as <-.
  - unfold observe in Ho. rewrite Hconf in Ho. discriminate.
  - cbv zeta in Ha. rewrite Ha, Hdeb.
    destruct (actuate_cases cfg raw
                (set_current_state raw
                   (set_debounce_count (debounce_count (app w) + 1) (app w))))
      as [(_ & _ & E)|[(_ & _ & E)|(_ & E)]]; rewrite E; auto.
Qed.

Lemma accumulator_survives_disable_witness :
  let w0 := fst (run default_config before_disable init_world) in
  let w := fst (run default_config disable_and_reenable w0) in
  pending_state (app (fst (step default_config (Cmd ToggleEnable) w0)))
  = pending_state (app w0)
  /\ current_state (app (fst (step default_config (Main green_screen) w)))
     = GREEN.
Proof.
  intros w0 w. split.
  - apply (proj1 (accumulator_survives_disable
                    default_config (Cmd ToggleEnable) w0)).
    reflexivity.
  - apply (proj2 (accumulator_survives_disable
                    default_config (Main green_screen) w)
             green_screen GREEN eq_refl);
      vm_compute; first [reflexivity | discriminate].
Defined.

(** C4 as stated fails.  Before the disable the filter has confirmed RED
    and seen GREEN once.  After one disabled tick and the re-enable, the
    accumulator is still (GREEN, 1), not (UNKNOWN, 0), and the first
    sample confirms GREEN and presses the key. *)
Lemma single_sample_confirms_after_reenable :
  let w0 := fst (run default_config before_disable init_world) in
  let wd := fst (run default_config
                   (Cmd ToggleEnable :: repeat (Main green_screen) 4) w0) in
  let w := fst (run default_config disable_and_reenable w0) in
  let after := step default_config (Main green_screen) w in
  (enabled (app w0) = true /\ enabled (app wd) = false
   /\ enabled (app w) = true)
  /\ List.filter is_grab (snd (run default_config disable_and_reenable w0))
     = []
  /\ pc w = ActiveBody
  /\ (pending_state (app w), debounce_count (app w)) = (GREEN, 1)
  /\ current_state (app w) = RED
  /\ current_state (app (fst after)) = GREEN
  /\ next_key_event (snd after) = Some (EvKeyDown "w").
Proof. vm_compute. repeat split. Qed.

(** *** Quitting *)

(** Each iteration of the main loop tests [running]: from the loop test
    with [running] false the main thread goes to the cleanup, and the
    bodies of the DISABLED and ACTIVE ticks come back to the loop test
    or leave the loop. *)
Lemma main_loop_polls_running (cfg : Config) (sct : Sct) (w : World) :
  (pc w = LoopHead -> running (app w) = false ->
   pc (fst (step cfg (Main sct) w)) = Finally Returned)
  /\ (pc w = DisabledBody -> pc (fst (step cfg (Main sct) w)) = LoopHead)
  /\ (pc w = ActiveBody ->
      pc (fst (step cfg (Main sct) w)) = LoopHead
      \/ exists e, pc (fst (step cfg (Main sct) w)) = Finally (Raised e)).
Proof.
  simpl. unfold main_step. repeat split; intros Hpc; rewrite Hpc.
  - intros ->. reflexivity.
  - unfold disabled_body. destruct (is_moving (app w)); reflexivity.
  - destruct (active_body_cases cfg sct w)
      as [(e & _ & E)|[(s & _ & _ & E)|(s & _ & _ & _ & _ & Hp & _)]].
    + rewrite E. right. exists e. reflexivity.
    + rewrite E. left. reflexivity.
    + left. exact Hp.
Qed.

(** An iteration of [calibrate] that samples successfully leaves the
    world as it is, whatever [running] says. *)
Lemma calibrate_loop_stays (cfg : Config) (sct : Sct) (w : World) :
  pc w = CalLoop ->
  fst (calibrate_iteration cfg sct w) = w ->
  forall n : nat, fst (run cfg (repeat (Main sct) n) w) = w.
Proof.
  intros Hpc Hiter. induction n as [|n IH]; simpl.
  - reflexivity.
  - unfold main_step. rewrite Hpc.
    destruct (calibrate_iteration cfg sct w) as [w1 evs1]. simpl in Hiter.
    subst w1.
    destruct (run cfg (repeat (Main sct) n) w) as [w2 evs2]. simpl in *.
    exact IH.
Qed.

(** C5, at the input where the code departs from it.  Calibration is on
    and the quit command has set [running] to false: the loop of
    [calibrate] tests only [calibrating], so however many iterations
    follow, the main thread is still inside it, sampling, and has not
    reached the cleanup. *)
Theorem calibration_ignores_quit :
  forall n : nat,
    let w := fst (run default_config quit_while_calibrating init_world) in
    let later := run default_config (repeat (Main green_screen) n) w in
    running (app w) = false
    /\ calibrating (app w) = true
    /\ pc w = CalLoop
    /\ fst later = w
    /\ length (List.filter is_grab (snd later)) = n.
Proof.
  intros n w later.
  assert (Hpc : pc w = CalLoop) by reflexivity.
  assert (Hiter : calibrate_iteration default_config green_screen w
                  = (w, [EvGrab (sample_region default_config);
                         EvPrint (CalibrationLine 10 200 10 GREEN);
                         EvSleep Ms100])) by reflexivity.
  split; [reflexivity |].
  split; [reflexivity |].
  split; [exact Hpc |].
  subst later.
  assert (Hstay := calibrate_loop_stays default_config green_screen w Hpc).
  rewrite Hiter in Hstay. specialize (Hstay eq_refl).
  split; [apply Hstay |].
  induction n as [|n IH]; [reflexivity |].
  cbn [repeat run]. simpl step. unfold main_step. rewrite Hpc, Hiter.
  pose proof (Hstay n) as Hn.
  destruct (run default_config (repeat (Main green_screen) n) w)
    as [w2 evs2].
  simpl in *. rewrite IH. reflexivity.
Qed.

(** * Further properties *)

(** ** Classifier: when the order of the rules does not matter *)

(** X1.  When [off_channel_max] is at most one above [green_threshold]
    and both colour thresholds are at least 49, as with the defaults, no
    sample satisfies two rules, so each state is returned exactly when
    its own rule holds, whatever the order of the tests. *)
Theorem classify_rules_disjoint :
  forall (r g b : Z) (cfg : Config),
    off_channel_max cfg <= green_threshold cfg + 1 ->
    49 <= green_threshold cfg ->
    49 <= red_threshold cfg ->
    ~ (green_rule r g cfg /\ red_rule r g cfg)
    /\ ~ (green_rule r g cfg /\ black_rule r g b)
    /\ ~ (red_rule r g cfg /\ black_rule r g b)
    /\ (classify_pixel r g b cfg = RED <-> red_rule r g cfg)
    /\ (classify_pixel r g b cfg = BLACK <-> black_rule r g b).
Proof.
  intros r g b cfg Hoff Hg Hr.
  assert (H1 : ~ (green_rule r g cfg /\ red_rule r g cfg))
    by (unfold green_rule, red_rule; lia).
  assert (H2 : ~ (green_rule r g cfg /\ black_rule r g b))
    by (unfold green_rule, black_rule; lia).
  assert (H3 : ~ (red_rule r g cfg /\ black_rule r g b))
    by (unfold red_rule, black_rule; lia).
  split; [exact H1 |]. split; [exact H2 |]. split; [exact H3 |].
  pose proof (classify_red r g b cfg) as Hred.
  pose proof (classify_black r g b cfg) as Hblack.
  split; tauto.
Qed.

Lemma classify_rules_disjoint_witness :
  classify_pixel 200 10 10 default_config = RED
  <-> red_rule 200 10 default_config.
Proof.
  assert (H1 : off_channel_max default_config
               <= green_threshold default_config + 1) by (simpl; lia).
  assert (H2 : 49 <= green_threshold default_config) by (simpl; lia).
  assert (H3 : 49 <= red_threshold default_config) by (simpl; lia).
  exact (proj1 (proj2 (proj2 (proj2
    (classify_rules_disjoint 200 10 10 default_config H1 H2 H3))))).
Defined.

(** ** Sampler: sizes, bounds and failures *)

Lemma grid_pixel_count (n : Z) (img : ScreenShot) :
  is_grid n img -> Z.of_nat (length (concat img)) = n * n.
Proof.
  intros [Hlen Hrows]. rewrite <- Hlen at 1. clear Hlen.
  induction Hrows as [|row rows Hrow _ IH]; simpl.
  - lia.
  - rewrite length_app. lia.
Qed.

Lemma Zsum_upper (l : list Z) :
  Forall (fun v => v <= 255) l -> Zsum l <= 255 * Z.of_nat (length l).
Proof. induction 1; simpl length; simpl Zsum; lia. Qed.

Lemma channel_sum_upper (ch : Pixel -> Z) (img : ScreenShot) :
  (forall px, pixel_ok px -> ch px <= 255) ->
  Forall (Forall pixel_ok) img ->
  channel_sum ch img <= 255 * Z.of_nat (length (concat img)).
Proof.
  intros Hch Himg. unfold channel_sum.
  rewrite <- (length_map ch). apply Zsum_upper.
  induction Himg as [|row rows Hrow _ IH]; simpl.
  - constructor.
  - rewrite map_app. apply Forall_app. split; [| exact IH].
    induction Hrow; simpl; constructor; auto.
Qed.

(** The averaged triple on a grid, with Python's floor division. *)
Lemma average_sample_grid (cfg : Config) (img : ScreenShot) :
  1 <= sample_size cfg ->
  is_grid (sample_size cfg) img ->
  average_sample cfg img
  = Ok (channel_sum red img / (sample_size cfg * sample_size cfg),
        channel_sum green img / (sample_size cfg * sample_size cfg),
        channel_sum blue img / (sample_size cfg * sample_size cfg)).
Proof.
  intros HN Hgrid. unfold average_sample.
  rewrite (sum_sample_grid cfg img Hgrid). cbn [mbind Result_bind].
  destruct (add_pixels_totals (concat img)
              {| total_r := 0; total_g := 0; total_b := 0 |})
    as (Hr & Hg & Hb).
  rewrite Hr, Hg, Hb. simpl total_r. simpl total_g. simpl total_b.
  unfold floordiv.
  destruct (Z.eqb_spec (sample_size cfg * sample_size cfg) 0) as [E|_];
    [nia |].
  reflexivity.
Qed.

(** X2.  On an N by N grid (N at least 1) of pixels with channels in
    0..255, each averaged channel is again in 0..255. *)
Theorem average_sample_in_range :
  forall (cfg : Config) (img : ScreenShot),
    1 <= sample_size cfg ->
    is_grid (sample_size cfg) img ->
    Forall (Forall pixel_ok) img ->
    exists avg_r avg_g avg_b : Z,
      average_sample cfg img = Ok (avg_r, avg_g, avg_b)
      /\ channel_ok avg_r /\ channel_ok avg_g /\ channel_ok avg_b.
Proof.
  intros cfg img HN Hgrid Hok.
  rewrite (average_sample_grid cfg img HN Hgrid).
  pose proof (grid_pixel_count _ _ Hgrid) as Hcount.
  assert (Hn2 : 0 < sample_size cfg * sample_size cfg) by nia.
  assert (Hbound : forall ch : Pixel -> Z,
             (forall px, pixel_ok px -> 0 <= ch px <= 255) ->
             channel_ok (channel_sum ch img
                         / (sample_size cfg * sample_size cfg))).
  { intros ch Hch. unfold channel_ok. split.
    - apply Z.div_pos; [| exact Hn2].
      apply channel_sum_nonneg; [| exact Hok]. intros px Hpx.
      apply (Hch px Hpx).
    - apply Z.div_le_upper_bound; [exact Hn2 |].
      rewrite <- Hcount, Z.mul_comm.
      apply channel_sum_upper; [| exact Hok]. intros px Hpx.
      apply (Hch px Hpx). }
  eexists _, _, _. split; [reflexivity |].
  repeat split; apply Hbound; intros px (H0 & H1 & H2); assumption.
Qed.

Lemma average_sample_in_range_witness :
  exists avg_r avg_g avg_b : Z,
    average_sample default_config mostly_green_frame
    = Ok (avg_r, avg_g, avg_b)
    /\ channel_ok avg_r /\ channel_ok avg_g /\ channel_ok avg_b.
Proof.
  apply average_sample_in_range.
  - simpl. lia.
  - split; [reflexivity | repeat constructor].
  - repeat constructor; unfold channel_ok; simpl; lia.
Defined.

Lemma Zsum_repeat (v : Z) (n : nat) : Zsum (repeat v n) = Z.of_nat n * v.
Proof. induction n as [|n IH]; simpl Zsum; [lia | rewrite IH; lia]. Qed.

Lemma channel_sum_uniform (ch : Pixel -> Z) (px : Pixel) (n : nat) :
  channel_sum ch (uniform_frame n px) = Z.of_nat n * Z.of_nat n * ch px.
Proof.
  unfold channel_sum, uniform_frame.
  assert (H : forall m : nat,
             Zsum (map ch (concat (repeat (repeat px n) m)))
             = Z.of_nat m * (Z.of_nat n * ch px)).
  { induction m as [|m IH]; simpl concat.
    - simpl. lia.
    - rewrite map_app.
      assert (Happ : forall a b : list Z, Zsum (a ++ b) = Zsum a + Zsum b).
      { induction a as [|x a IHa]; intros b0; simpl; [lia |].
        fold (Zsum (a ++ b0)). fold (Zsum a). rewrite IHa. lia. }
      rewrite Happ, IH, map_repeat, Zsum_repeat. lia. }
  rewrite H. lia.
Qed.

Lemma uniform_frame_grid (n : nat) (px : Pixel) :
  is_grid (Z.of_nat n) (uniform_frame n px).
Proof.
  unfold is_grid, uniform_frame. split.
  - rewrite repeat_length. reflexivity.
  - apply Forall_forall. intros row Hrow.
    apply list_elem_of_In, repeat_spec in Hrow. subst row.
    rewrite repeat_length. reflexivity.
Qed.

(** X3.  Averaging a frame whose N by N pixels are all the same pixel
    gives back that pixel's channels exactly, whatever their values, so
    the sampled state is the classification of that pixel. *)
Theorem uniform_frame_reads_its_pixel :
  forall (cfg : Config) (sct : Sct) (px : Pixel) (n : nat),
    (1 <= n)%nat ->
    sample_size cfg = Z.of_nat n ->
    sct (sample_region cfg) = Ok (uniform_frame n px) ->
    average_sample cfg (uniform_frame n px) = Ok (px2 px, px1 px, px0 px)
    /\ read_pixel_state sct cfg
       = Ok (classify_pixel (px2 px) (px1 px) (px0 px) cfg).
Proof.
  intros cfg sct px n Hn Hsize Hsct.
  assert (Havg : average_sample cfg (uniform_frame n px)
                 = Ok (px2 px, px1 px, px0 px)).
  { rewrite average_sample_grid.
    - rewrite !channel_sum_uniform, Hsize.
      unfold red, green, blue.
      rewrite !(Z.mul_comm (Z.of_nat n * Z.of_nat n)).
      rewrite !Z.div_mul by nia. reflexivity.
    - lia.
    - rewrite Hsize. apply uniform_frame_grid. }
  split; [exact Havg |].
  unfold read_pixel_state. rewrite Hsct. cbn [mbind Result_bind].
  rewrite Havg. reflexivity.
Qed.

Lemma uniform_frame_reads_its_pixel_witness :
  read_pixel_state red_screen default_config = Ok RED.
Proof.
  exact (proj2 (uniform_frame_reads_its_pixel default_config red_screen
                  {| px0 := 10; px1 := 10; px2 := 200 |} 3
                  ltac:(lia) eq_refl eq_refl)).
Defined.

Lemma img_pixel_raises (img : ScreenShot) (x y : nat) (e : Exn) :
  img_pixel img x y = Raise e -> e = ScreenShotError.
Proof.
  unfold img_pixel. destruct (img !! y) as [row|]; [| congruence].
  destruct (row !! x); congruence.
Qed.

(** A loop whose body can only raise [ScreenShotError], and does so at
    one of its indices whatever the state, raises [ScreenShotError]. *)
Lemma for_each_raises {S : Type} (body : nat -> S -> Result S)
    (bad : nat) (xs : list nat) :
  (forall x s e, body x s = Raise e -> e = ScreenShotError) ->
  (forall s, body bad s = Raise ScreenShotError) ->
  In bad xs ->
  forall s, for_each body xs s = Raise ScreenShotError.
Proof.
  intros Honly Hbad. induction xs as [|x xs IH]; intros Hin s.
  - destruct Hin.
  - simpl. destruct (body x s) as [s'|e] eqn:E.
    + cbn [mbind Result_bind]. destruct Hin as [->|Hin].
      * rewrite Hbad in E. discriminate.
      * apply IH. exact Hin.
    + cbn [mbind Result_bind]. rewrite (Honly _ _ _ E). reflexivity.
Qed.

Lemma add_pixel_at_raises (img : ScreenShot) (x y : nat) (t : Totals)
    (e : Exn) :
  add_pixel_at img x y t = Raise e -> e = ScreenShotError.
Proof.
  unfold add_pixel_at. destruct (img_pixel img x y) as [px|e'] eqn:E;
    cbn [mbind Result_bind]; [discriminate |].
  intros [= <-]. exact (img_pixel_raises _ _ _ _ E).
Qed.

Lemma for_each_raises_only {S : Type} (body : nat -> S -> Result S)
    (xs : list nat) :
  (forall x s e, body x s = Raise e -> e = ScreenShotError) ->
  forall s e, for_each body xs s = Raise e -> e = ScreenShotError.
Proof.
  intros Honly. induction xs as [|x xs IH]; intros s e; simpl.
  - discriminate.
  - destruct (body x s) as [s'|e'] eqn:E; cbn [mbind Result_bind].
    + apply IH.
    + intros [= <-]. exact (Honly _ _ _ E).
Qed.

(** X4.  A frame that lacks a pixel of the sampled square (too few rows,
    or a row too short) makes the sampler raise the frame-grabber's
    error: no average is computed over the pixels that are there. *)
Theorem short_frame_raises :
  forall (cfg : Config) (sct : Sct) (img : ScreenShot) (x y : nat) (e : Exn),
    (x < Z.to_nat (sample_size cfg))%nat ->
    (y < Z.to_nat (sample_size cfg))%nat ->
    img_pixel img x y = Raise e ->
    sct (sample_region cfg) = Ok img ->
    average_sample cfg img = Raise ScreenShotError
    /\ read_pixel_state sct cfg = Raise ScreenShotError.
Proof.
  intros cfg sct img x y e Hx Hy Hpx Hsct.
  assert (Hsum : sum_sample cfg img = Raise ScreenShotError).
  { unfold sum_sample, range.
    apply (for_each_raises _ y).
    - intros y0 t e0. apply for_each_raises_only.
      intros x0 t0 e1. apply add_pixel_at_raises.
    - intros t. apply (for_each_raises _ x).
      + intros x0 t0 e1. apply add_pixel_at_raises.
      + intros t0. unfold add_pixel_at. rewrite Hpx.
        rewrite (img_pixel_raises _ _ _ _ Hpx). reflexivity.
      + apply in_seq. lia.
    - apply in_seq. lia. }
  assert (Havg : average_sample cfg img = Raise ScreenShotError).
  { unfold average_sample. rewrite Hsum. reflexivity. }
  split; [exact Havg |].
  unfold read_pixel_state. rewrite Hsct. cbn [mbind Result_bind].
  rewrite Havg. reflexivity.
Qed.

(** A 3 by 3 sample of a frame that is only 2 by 2. *)
Lemma short_frame_raises_witness :
  let p := {| px0 := 10; px1 := 200; px2 := 10 |} in
  read_pixel_state (fun _ => Ok [[p; p]; [p; p]]) default_config
  = Raise ScreenShotError.
Proof.
  intros p.
  refine (proj2 (short_frame_raises default_config
                   (fun _ => Ok [[p; p]; [p; p]]) [[p; p]; [p; p]]
                   2 0 ScreenShotError _ _ eq_refl eq_refl)).
  - simpl. lia.
  - simpl. lia.
Defined.

(** X5.  Degenerate sample sizes.  With [sample_size = 0] the sampler
    raises [ZeroDivisionError] on every frame; with a negative
    [sample_size] it reads no pixel at all and reports the triple
    (0, 0, 0), so the state is the classification of black whatever is
    on the screen. *)
Theorem degenerate_sample_size :
  forall (cfg : Config) (img : ScreenShot),
    sample_size cfg <= 0 ->
    (sample_size cfg = 0 ->
     average_sample cfg img = Raise ZeroDivisionError)
    /\ (sample_size cfg < 0 ->
        average_sample cfg img = Ok (0, 0, 0)
        /\ forall sct : Sct,
             sct (sample_region cfg) = Ok img ->
             read_pixel_state sct cfg = Ok (classify_pixel 0 0 0 cfg)).
Proof.
  intros cfg img Hle.
  assert (Hsum : sum_sample cfg img
                 = Ok {| total_r := 0; total_g := 0; total_b := 0 |}).
  { unfold sum_sample, range.
    replace (Z.to_nat (sample_size cfg)) with 0%nat by lia. reflexivity. }
  split.
  - intros H0. unfold average_sample. rewrite Hsum, H0. reflexivity.
  - intros Hneg.
    assert (Havg : average_sample cfg img = Ok (0, 0, 0)).
    { unfold average_sample. rewrite Hsum. cbn [mbind Result_bind].
      simpl total_r. simpl total_g. simpl total_b. unfold floordiv.
      destruct (Z.eqb_spec (sample_size cfg * sample_size cfg) 0) as [E|_];
        [nia |].
      rewrite Z.div_0_l by nia. reflexivity. }
    split; [exact Havg |].
    intros sct Hsct. unfold read_pixel_state. rewrite Hsct.
    cbn [mbind Result_bind]. rewrite Havg. reflexivity.
Qed.

Lemma degenerate_sample_size_witness :
  let cfg := {| pixel_x := 960; pixel_y := 540; sample_size := -3;
                green_threshold := 150; red_threshold := 150;
                off_channel_max := 100; debounce_frames := 2;
                move_key := "w"; toggle_hotkey := "f6";
                quit_hotkey := "f7"; calibrate_hotkey := "f8" |} in
  read_pixel_state green_screen cfg = Ok BLACK.
Proof.
  intros cfg.
  assert (Hle : sample_size cfg <= 0) by (simpl; lia).
  assert (Hneg : sample_size cfg < 0) by (simpl; lia).
  destruct (degenerate_sample_size cfg mostly_green_frame Hle) as [_ H].
  destruct (H Hneg) as [_ Hread].
  exact (Hread green_screen eq_refl).
Defined.

(** X6.  On an N by N frame (N at least 1) an iteration of [calibrate]
    never raises: it reports the single pixel at (N // 2, N // 2), not
    the average of the square, with that pixel's classification, issues
    no key event and leaves the session state as it is. *)
Theorem calibrate_reports_centre_pixel :
  forall (cfg : Config) (sct : Sct) (img : ScreenShot) (w : World),
    1 <= sample_size cfg ->
    is_grid (sample_size cfg) img ->
    sct (sample_region cfg) = Ok img ->
    pc w = CalLoop ->
    calibrating (app w) = true ->
    exists (row : list Pixel) (px : Pixel),
      img !! Z.to_nat (sample_size cfg / 2) = Some row
      /\ row !! Z.to_nat (sample_size cfg / 2) = Some px
      /\ step cfg (Main sct) w
         = (w, [EvGrab (sample_region cfg);
                EvPrint (CalibrationLine (px2 px) (px1 px) (px0 px)
                           (classify_pixel (px2 px) (px1 px) (px0 px) cfg));
                EvSleep Ms100]).
Proof.
  intros cfg sct img w HN [Hlen Hrows] Hsct Hpc Hcal.
  unfold ScreenShot in *.
  assert (Hc : 0 <= sample_size cfg / 2 < sample_size cfg).
  { split; [apply Z.div_pos; lia | apply Z.div_lt_upper_bound; lia]. }
  destruct (lookup_lt_is_Some_2 img (Z.to_nat (sample_size cfg / 2)))
    as [row Hrow]; [lia |].
  assert (Hrl : Z.of_nat (length row) = sample_size cfg).
  { rewrite Forall_forall in Hrows. apply Hrows.
    eapply list_elem_of_lookup_2; eauto. }
  destruct (lookup_lt_is_Some_2 row (Z.to_nat (sample_size cfg / 2)))
    as [px Hpx]; [lia |].
  exists row, px. split; [exact Hrow |]. split; [exact Hpx |].
  simpl. unfold main_step. rewrite Hpc.
  unfold calibrate_iteration. rewrite Hcal, Hsct. cbn [negb mbind Result_bind].
  destruct (Z.ltb_spec (sample_size cfg / 2) 0) as [Hneg|_]; [lia |].
  unfold img_pixel, ScreenShot. rewrite Hrow, Hpx. reflexivity.
Qed.

Lemma calibrate_reports_centre_pixel_witness :
  let w := fst (run default_config
                  [Cmd ToggleCalibrate; Main green_screen;
                   Main green_screen] init_world) in
  snd (step default_config (Main green_screen) w)
  = [EvGrab (sample_region default_config);
     EvPrint (CalibrationLine 10 200 10 GREEN); EvSleep Ms100].
Proof.
  intros w.
  assert (H1 : 1 <= sample_size default_config) by (simpl; lia).
  assert (H2 : is_grid (sample_size default_config) mostly_green_frame).
  { split; [reflexivity | repeat constructor]. }
  destruct (calibrate_reports_centre_pixel default_config green_screen
              mostly_green_frame w H1 H2 eq_refl eq_refl eq_refl)
    as (row & px & Hrow & Hpx & Hstep).
  rewrite Hstep. simpl in Hrow. injection Hrow as <-.
  simpl in Hpx. injection Hpx as <-. reflexivity.
Defined.

(** ** Debounce: latency, noise and degenerate thresholds *)

(** A reading equal to the pending state, not yet confirmed. *)
Lemma observe_pending (cfg : Config) (r : PixelState) (st : AppState) :
  pending_state st = r ->
  current_state st <> r ->
  observe cfg r st
  = if debounce_count st + 1 >=? debounce_frames cfg
    then (set_current_state r
            (set_debounce_count (debounce_count st + 1) st), Some r)
    else (set_debounce_count (debounce_count st + 1) st, None).
Proof.
  intros Hp Hc. unfold observe, debounce, confirms.
  rewrite (bool_decide_eq_true_2 (r = pending_state st)) by congruence.
  simpl. rewrite (bool_decide_eq_false_2 (r = current_state st)) by congruence.
  rewrite andb_true_r. reflexivity.
Qed.

(** A reading that differs from the pending state restarts the count. *)
Lemma observe_restart (cfg : Config) (r : PixelState) (st : AppState) :
  pending_state st <> r ->
  observe cfg r st
  = if (1 >=? debounce_frames cfg)
       && negb (bool_decide (r = current_state st))
    then (set_current_state r
            (set_debounce_count 1 (set_pending_state r st)), Some r)
    else (set_debounce_count 1 (set_pending_state r st), None).
Proof.
  intros Hp. unfold observe, debounce, confirms.
  rewrite (bool_decide_eq_false_2 (r = pending_state st)) by congruence.
  reflexivity.
Qed.

Lemma feed_repeat_pending (cfg : Config) (r : PixelState) :
  forall (k : nat) (st : AppState),
    pending_state st = r ->
    current_state st <> r ->
    debounce_count st + Z.of_nat k < debounce_frames cfg ->
    snd (feed cfg (repeat r k) st) = repeat None k
    /\ pending_state (fst (feed cfg (repeat r k) st)) = r
    /\ current_state (fst (feed cfg (repeat r k) st)) = current_state st
    /\ debounce_count (fst (feed cfg (repeat r k) st))
       = debounce_count st + Z.of_nat k.
Proof.
  induction k as [|k IH]; intros st Hp Hc Hlt.
  - simpl. repeat split; auto. lia.
  - cbn [repeat feed]. rewrite (observe_pending cfg r st Hp Hc).
    destruct (Z.geb_spec (debounce_count st + 1) (debounce_frames cfg))
      as [Hge|_]; [lia |].
    destruct (IH (set_debounce_count (debounce_count st + 1) st))
      as (H1 & H2 & H3 & H4); [exact Hp | exact Hc | simpl; lia |].
    destruct (feed cfg (repeat r k)
                (set_debounce_count (debounce_count st + 1) st))
      as [st2 outs].
    simpl in *. rewrite H1, H4. repeat split; auto. lia.
Qed.

(** From a pending run of [r] that is [missing] readings short of the
    threshold, exactly the [missing]-th further reading confirms. *)
Lemma feed_completes_run (cfg : Config) (r : PixelState) (st : AppState)
    (m : nat) :
  pending_state st = r ->
  current_state st <> r ->
  debounce_count st + Z.of_nat (S m) = debounce_frames cfg ->
  snd (feed cfg (repeat r (S m)) st) = repeat None m ++ [Some r]
  /\ current_state (fst (feed cfg (repeat r (S m)) st)) = r.
Proof.
  intros Hp Hc Hcount.
  change (repeat r (S m)) with (r :: repeat r m).
  rewrite repeat_cons, feed_app.
  destruct (feed_repeat_pending cfg r m st Hp Hc) as (H1 & H2 & H3 & H4);
    [lia |].
  cbn [fst snd]. rewrite H1.
  set (st1 := fst (feed cfg (repeat r m) st)) in *.
  cbn [feed].
  rewrite (observe_pending cfg r st1 H2) by congruence.
  destruct (Z.geb_spec (debounce_count st1 + 1) (debounce_frames cfg))
    as [_|Hlt]; [| lia].
  split; reflexivity.
Qed.

(** X7.  Latency of the filter.  When neither the pending nor the
    confirmed state is [r] and [debounce_frames] is N >= 1, N consecutive
    readings of [r] emit nothing for the first N - 1 and confirm [r] at
    the N-th; when [r] is already pending with count c < N and not
    confirmed, the N - c further readings do the same. *)
Theorem confirmation_latency :
  forall (cfg : Config) (r : PixelState) (st : AppState),
    current_state st <> r ->
    (pending_state st <> r ->
     1 <= debounce_frames cfg ->
     let n := Z.to_nat (debounce_frames cfg) in
     snd (feed cfg (repeat r n) st) = repeat None (n - 1) ++ [Some r]
     /\ current_state (fst (feed cfg (repeat r n) st)) = r)
    /\ (pending_state st = r ->
        debounce_count st < debounce_frames cfg ->
        let k := Z.to_nat (debounce_frames cfg - debounce_count st) in
        snd (feed cfg (repeat r k) st) = repeat None (k - 1) ++ [Some r]
        /\ current_state (fst (feed cfg (repeat r k) st)) = r).
Proof.
  intros cfg r st Hc. split.
  - intros Hp HN n.
    destruct n as [|m] eqn:En; [lia |].
    replace (S m - 1)%nat with m by lia.
    cbn [repeat feed]. rewrite (observe_restart cfg r st Hp).
    rewrite (bool_decide_eq_false_2 (r = current_state st)) by congruence.
    rewrite andb_true_r.
    destruct (Z.geb_spec 1 (debounce_frames cfg)) as [Hge|Hlt].
    + assert (m = 0)%nat as -> by lia. simpl. split; reflexivity.
    + destruct m as [|m']; [lia |].
      destruct (feed_completes_run cfg r
                  (set_debounce_count 1 (set_pending_state r st)) m')
        as [H1 H2]; [reflexivity | exact Hc | simpl; lia |].
      destruct (feed cfg (repeat r (S m'))
                  (set_debounce_count 1 (set_pending_state r st)))
        as [st2 outs].
      simpl in *. rewrite H1. split; [reflexivity | exact H2].
  - intros Hp Hlt k.
    destruct k as [|m] eqn:Ek; [lia |].
    replace (S m - 1)%nat with m by lia.
    apply feed_completes_run; [exact Hp | exact Hc | lia].
Qed.

Lemma confirmation_latency_witness :
  snd (feed default_config [RED; RED] init_state) = [None; Some RED].
Proof.
  assert (Hc : current_state init_state <> RED) by discriminate.
  assert (Hp : pending_state init_state <> RED) by discriminate.
  assert (HN : 1 <= debounce_frames default_config) by (simpl; lia).
  exact (proj1 (proj1 (confirmation_latency default_config RED init_state Hc)
                  Hp HN)).
Defined.

(** X8.  Noise rejection.  With [debounce_frames] at least 2, a stream
    in which no reading equals the one before it (the first differing
    from the pending state) never confirms anything: it emits nothing
    and the confirmed state stays as it was. *)
Theorem flicker_never_confirms :
  forall (cfg : Config) (raws : list PixelState) (st : AppState),
    2 <= debounce_frames cfg ->
    flickers (pending_state st) raws ->
    snd (feed cfg raws st) = repeat None (length raws)
    /\ current_state (fst (feed cfg raws st)) = current_state st.
Proof.
  intros cfg raws. induction raws as [|raw raws IH]; intros st HN Hfl.
  - simpl. auto.
  - destruct Hfl as [Hne Hfl]. cbn [feed].
    rewrite (observe_restart cfg raw st) by congruence.
    destruct (Z.geb_spec 1 (debounce_frames cfg)) as [Hge|_]; [lia |].
    cbn [andb].
    destruct (IH (set_debounce_count 1 (set_pending_state raw st)) HN Hfl)
      as [H1 H2].
    destruct (feed cfg raws (set_debounce_count 1 (set_pending_state raw st)))
      as [st2 outs].
    simpl in *. rewrite H1. split; [reflexivity | exact H2].
Qed.

Lemma flicker_never_confirms_witness :
  snd (feed default_config [GREEN; RED; GREEN; RED; GREEN] init_state)
  = [None; None; None; None; None].
Proof.
  refine (proj1 (flicker_never_confirms default_config
                   [GREEN; RED; GREEN; RED; GREEN] init_state _ _)).
  - simpl. lia.
  - simpl. repeat split; discriminate.
Defined.

Lemma observe_count_positive (cfg : Config) (r : PixelState) (st : AppState) :
  0 <= debounce_count st -> 1 <= debounce_count (fst (observe cfg r st)).
Proof.
  intros H0. destruct (observe_accumulator cfg r st) as [_ Hc].
  rewrite Hc. destruct (bool_decide (r = pending_state st)); lia.
Qed.

Lemma feed_count_nonneg (cfg : Config) (raws : list PixelState) :
  forall st, 0 <= debounce_count st ->
             0 <= debounce_count (fst (feed cfg raws st)).
Proof.
  induction raws as [|raw raws IH]; intros st H0; simpl; [exact H0 |].
  pose proof (observe_count_positive cfg raw st H0) as H1.
  destruct (observe cfg raw st) as [st1 out]. simpl in H1.
  specialize (IH st1 ltac:(lia)).
  destruct (feed cfg raws st1) as [st2 outs]. exact IH.
Qed.

(** X9.  With [debounce_frames] at most 1 (zero and negative values
    included) the filter is transparent: from the initial accumulator,
    every reading that differs from the confirmed state is confirmed at
    once, and a reading equal to it emits nothing. *)
Theorem debounce_off_when_threshold_at_most_one :
  forall (cfg : Config) (pre : list PixelState) (raw : PixelState),
    debounce_frames cfg <= 1 ->
    let before := fst (feed cfg pre init_state) in
    snd (observe cfg raw before)
    = if bool_decide (raw = current_state before) then None else Some raw.
Proof.
  intros cfg pre raw HN before.
  assert (H0 : 0 <= debounce_count before).
  { apply feed_count_nonneg. simpl. lia. }
  pose proof (observe_count_positive cfg raw before H0) as H1.
  destruct (observe_emits cfg raw before) as [Hiff _].
  assert (Hor : snd (observe cfg raw before) = None
                \/ snd (observe cfg raw before) = Some raw).
  { unfold observe.
    destruct (confirms cfg raw (debounce raw before)); auto. }
  destruct (bool_decide_reflect (raw = current_state before)) as [E|E].
  - destruct Hor as [Hn|Hsome]; [exact Hn |].
    apply Hiff in Hsome. tauto.
  - apply Hiff. split; [lia | exact E].
Qed.

Lemma debounce_off_when_threshold_at_most_one_witness :
  let cfg := {| pixel_x := 960; pixel_y := 540; sample_size := 3;
                green_threshold := 150; red_threshold := 150;
                off_channel_max := 100; debounce_frames := 0;
                move_key := "w"; toggle_hotkey := "f6";
                quit_hotkey := "f7"; calibrate_hotkey := "f8" |} in
  snd (observe cfg GREEN (fst (feed cfg [RED] init_state))) = Some GREEN.
Proof.
  intros cfg.
  assert (HN : debounce_frames cfg <= 1) by (simpl; lia).
  exact (debounce_off_when_threshold_at_most_one cfg [RED] GREEN HN).
Defined.

(** ** Control loop: who writes what *)

Lemma actuate_keeps (cfg : Config) (s : PixelState) (st : AppState) :
  enabled (fst (actuate cfg s st)) = enabled st
  /\ running (fst (actuate cfg s st)) = running st
  /\ calibrating (fst (actuate cfg s st)) = calibrating st
  /\ current_state (fst (actuate cfg s st)) = current_state st
  /\ is_moving (fst (actuate cfg s st)) = bool_decide (s = GREEN).
Proof.
  destruct (actuate_cases cfg s st) as [(Hs & _ & E)|[(Hs & _ & E)|(Hm & E)]];
    rewrite E; simpl; repeat split; auto.
  - subst s. reflexivity.
  - symmetry. apply bool_decide_eq_false_2. exact Hs.
Qed.

(** A step of the main thread, or an interrupt, leaves the three flags
    of the callbacks as they are. *)
Lemma main_step_keeps_flags (cfg : Config) (i : Input) (w : World) :
  is_command i = false ->
  enabled (app (fst (step cfg i w))) = enabled (app w)
  /\ running (app (fst (step cfg i w))) = running (app w)
  /\ calibrating (app (fst (step cfg i w))) = calibrating (app w).
Proof.
  destruct i as [c|sct|]; simpl; [discriminate | |]; intros _.
  - unfold main_step. destruct (pc w).
    + destruct (running (app w)) eqn:E; simpl; auto.
    + destruct (calibrating (app w)) eqn:E; simpl; auto.
    + unfold calibrate_iteration.
      destruct (negb (calibrating (app w))) eqn:E; [simpl; auto |].
      match goal with |- context [match ?x with Ok _ => _ | Raise _ => _ end] =>
        destruct x end; auto.
    + destruct (negb (enabled (app w))) eqn:E; simpl; auto.
    + unfold disabled_body. destruct (is_moving (app w)); auto.
    + destruct (active_body_cases cfg sct w)
        as [(e & _ & E)|[(s & _ & _ & E)|(s & _ & _ & _ & Ha & _)]].
      * rewrite E. auto.
      * rewrite E. simpl.
        destruct (debounce_keeps s (app w)) as (H1 & H2 & H3 & _). auto.
      * cbv zeta in Ha. rewrite Ha.
        destruct (actuate_keeps cfg s
                    (set_current_state s (debounce s (app w))))
          as (H1 & H2 & H3 & _).
        destruct (debounce_keeps s (app w)) as (K1 & K2 & K3 & _).
        simpl in H1, H2, H3. rewrite H1, H2, H3. auto.
    + auto.
    + auto.
  - destruct (in_try (pc w)); auto.
Qed.

(** X10.  The flags belong to the callbacks.  Along any interleaving
    without commands the loop leaves [enabled], [running] and
    [calibrating] as they were; and whatever the interleaving, once
    [running] is false it is never true again (no code path sets it
    back). *)
Theorem flags_belong_to_commands :
  forall (cfg : Config) (sched : list Input) (w : World),
    (forallb (fun i => negb (is_command i)) sched = true ->
     enabled (app (fst (run cfg sched w))) = enabled (app w)
     /\ running (app (fst (run cfg sched w))) = running (app w)
     /\ calibrating (app (fst (run cfg sched w))) = calibrating (app w))
    /\ (running (app w) = false ->
        running (app (fst (run cfg sched w))) = false).
Proof.
  intros cfg sched. induction sched as [|i sched IH]; intros w.
  - simpl. auto.
  - cbn [run forallb].
    destruct (step cfg i w) as [w1 evs1] eqn:Hstep.
    destruct (IH w1) as [IH1 IH2].
    destruct (run cfg sched w1) as [w2 evs2]. cbn [fst] in *.
    split.
    + intros Hall. apply andb_true_iff in Hall as [Hi Hall].
      apply negb_true_iff in Hi.
      destruct (main_step_keeps_flags cfg i w Hi) as (H1 & H2 & H3).
      rewrite Hstep in H1, H2, H3. simpl in H1, H2, H3.
      destruct (IH1 Hall) as (K1 & K2 & K3). repeat split; congruence.
    + intros Hrun. apply IH2.
      destruct (is_command i) eqn:Hi.
      * destruct i as [c| |]; try discriminate.
        simpl in Hstep. injection Hstep as <- _. simpl.
        destruct c; simpl; auto.
      * destruct (main_step_keeps_flags cfg i w Hi) as (_ & H2 & _).
        rewrite Hstep in H2. simpl in H2. congruence.
Qed.

Lemma flags_belong_to_commands_witness :
  let w := fst (run default_config (walk_schedule ++ [Cmd Quit])
                  init_world) in
  running (app (fst (run default_config
                       [Main green_screen; Cmd ToggleEnable;
                        Cmd ToggleCalibrate; Main red_screen] w)))
  = false.
Proof.
  intros w.
  apply (proj2 (flags_belong_to_commands default_config
                  [Main green_screen; Cmd ToggleEnable;
                   Cmd ToggleCalibrate; Main red_screen] w)).
  vm_compute. reflexivity.
Defined.

(** ** Control loop: quitting outside calibration *)

Lemma main_step_towards_exit (cfg : Config) (sct : Sct) (w : World) :
  running (app w) = false ->
  calibrating (app w) = false ->
  (steps_to_exit (pc (fst (step cfg (Main sct) w)))
   <= steps_to_exit (pc w) - 1)%nat.
Proof.
  intros Hrun Hcal. simpl. unfold main_step. destruct (pc w) eqn:Hpc.
  - rewrite Hrun. simpl. lia.
  - rewrite Hcal. simpl. lia.
  - unfold calibrate_iteration. rewrite Hcal. simpl. lia.
  - destruct (negb (enabled (app w))); simpl; lia.
  - unfold disabled_body. destruct (is_moving (app w)); simpl; lia.
  - destruct (active_body_cases cfg sct w)
      as [(e & _ & E)|[(s & _ & _ & E)|(s & _ & _ & _ & _ & Hp & _)]].
    + rewrite E. simpl. lia.
    + rewrite E. simpl. lia.
    + rewrite Hp. simpl. lia.
  - simpl. lia.
  - simpl. rewrite Hpc. simpl. lia.
Qed.

Lemma main_steps_towards_exit (cfg : Config) (scts : list Sct) :
  forall w : World,
    running (app w) = false ->
    calibrating (app w) = false ->
    (steps_to_exit (pc (fst (run cfg (map Main scts) w)))
     <= steps_to_exit (pc w) - length scts)%nat.
Proof.
  induction scts as [|sct scts IH]; intros w Hrun Hcal.
  - simpl. lia.
  - cbn [map run].
    pose proof (main_step_towards_exit cfg sct w Hrun Hcal) as Hstep.
    destruct (main_step_keeps_flags cfg (Main sct) w eq_refl)
      as (_ & H2 & H3).
    destruct (step cfg (Main sct) w) as [w1 evs1]. cbn [fst] in *.
    specialize (IH w1 ltac:(congruence) ltac:(congruence)).
    destruct (run cfg (map Main scts) w1) as [w2 evs2]. cbn [fst] in *.
    simpl length. lia.
Qed.

(** X11.  Quit works outside calibration.  In a trace without Ctrl-C,
    from any state the loop can reach, once [running] is false and
    calibration is off, five steps of the main thread (whatever the
    screen shows, and whether the grab fails or not) bring [main] to its
    end, with the key up. *)
Theorem quit_ends_main_outside_calibration :
  forall (cfg : Config) (sched : list Input) (scts : list Sct),
    interrupt_free sched = true ->
    let w := fst (run cfg sched init_world) in
    running (app w) = false ->
    calibrating (app w) = false ->
    (5 <= length scts)%nat ->
    let all := run cfg (sched ++ map Main scts) init_world in
    (exists o, pc (fst all) = Done o)
    /\ key_down_after (snd all) false = false.
Proof.
  intros cfg sched scts _ w Hrun Hcal Hlen all.
  assert (Hdone : exists o, pc (fst all) = Done o).
  { subst all. rewrite run_app. cbn [fst]. fold w.
    pose proof (main_steps_towards_exit cfg scts w Hrun Hcal) as Hle.
    destruct (pc (fst (run cfg (map Main scts) w))) eqn:Hpc;
      simpl in Hle; try (destruct (pc w); simpl in Hle; lia).
    eauto. }
  split; [exact Hdone |].
  destruct Hdone as [o Hpc].
  pose proof (run_key_tracked cfg (sched ++ map Main scts)) as Ht.
  fold all in Ht. unfold key_tracked in Ht. rewrite Hpc in Ht. exact Ht.
Qed.

Lemma quit_ends_main_outside_calibration_witness :
  let all := run default_config
               ((walk_schedule ++ [Cmd Quit])
                ++ map Main (repeat green_screen 5)) init_world in
  (exists o, pc (fst all) = Done o)
  /\ key_down_after (snd all) false = false.
Proof.
  apply (quit_ends_main_outside_calibration default_config
           (walk_schedule ++ [Cmd Quit]) (repeat green_screen 5)).
  - reflexivity.
  - vm_compute. reflexivity.
  - vm_compute. reflexivity.
  - simpl. lia.
Defined.

(** ** Control loop: the shape of the key trace *)

Lemma keys_ok_app (a b : list Event) : forall d,
  keys_ok (a ++ b) d = keys_ok a d && keys_ok b (key_down_after a d).
Proof.
  induction a as [|e a IH]; intros d; [reflexivity |].
  destruct e; simpl; rewrite ?IH; try reflexivity.
  - rewrite andb_assoc. reflexivity.
  - rewrite andb_assoc. reflexivity.
Qed.

Lemma keys_ok_key_events (evs : list Event) : forall d,
  keys_ok (key_events evs) d = keys_ok evs d.
Proof.
  induction evs as [|e evs IH]; intros d; [reflexivity |].
  destruct e; simpl; rewrite ?IH; reflexivity.
Qed.

Lemma step_keys_ok (cfg : Config) (i : Input) (w : World) (d : bool) :
  key_tracked w d -> keys_ok (snd (step cfg i w)) d = true.
Proof.
  unfold key_tracked. intros Ht. destruct i as [c|sct|]; simpl.
  - reflexivity.
  - unfold main_step. destruct (pc w) eqn:Hpc.
    + destruct (running (app w)); reflexivity.
    + destruct (calibrating (app w)); reflexivity.
    + unfold calibrate_iteration.
      destruct (negb (calibrating (app w))); [reflexivity |].
      match goal with |- context [match ?x with Ok _ => _ | Raise _ => _ end] =>
        destruct x end; reflexivity.
    + destruct (negb (enabled (app w))); reflexivity.
    + unfold disabled_body.
      destruct (is_moving (app w)) eqn:Hm; simpl; [| reflexivity].
      rewrite Ht. reflexivity.
    + destruct (active_body_cases cfg sct w)
        as [(e & _ & E)|[(s & _ & _ & E)|(s & _ & _ & _ & _ & _ & Hk)]].
      * rewrite E. reflexivity.
      * rewrite E. reflexivity.
      * cbv zeta in Hk. rewrite <- keys_ok_key_events, Hk.
        destruct (debounce_keeps s (app w)) as (_ & _ & _ & Hm & _).
        destruct (actuate_cases cfg s
                    (set_current_state s (debounce s (app w))))
          as [(_ & Hmv & E)|[(_ & Hmv & E)|(_ & E)]]; rewrite E; simpl;
          try reflexivity; simpl in Hmv; rewrite Hm in Hmv;
          rewrite Ht, Hmv; reflexivity.
    + unfold finally_block. simpl.
      destruct (is_moving (app w)) eqn:Hm; simpl; [| reflexivity].
      rewrite Ht. reflexivity.
    + reflexivity.
  - destruct (in_try (pc w)); reflexivity.
Qed.

Lemma run_keys_ok (cfg : Config) (sched : list Input) :
  keys_ok (snd (run cfg sched init_world)) false = true.
Proof.
  induction sched as [|i sched IH] using rev_ind.
  - reflexivity.
  - rewrite run_snoc. cbn [snd]. rewrite keys_ok_app, IH. simpl.
    apply step_keys_ok. apply run_key_tracked.
Qed.

(** X12.  In every trace without Ctrl-C from the initial state the key
    events alternate, starting with a key-down: the loop never sends a
    key-down while the key is down, nor a key-up while it is up. *)
Theorem key_events_alternate :
  forall (cfg : Config) (sched : list Input),
    interrupt_free sched = true ->
    keys_ok (snd (run cfg sched init_world)) false = true.
Proof.
  intros cfg sched _. apply run_keys_ok.
Qed.

(** Walk, disable, walk again on a screen that turned RED and GREEN,
    then quit: down, up, down, up. *)
Lemma key_events_alternate_witness :
  let sched := walk_schedule
               ++ Cmd ToggleEnable :: repeat (Main green_screen) 4
               ++ Cmd ToggleEnable :: repeat (Main red_screen) 8
               ++ repeat (Main green_screen) 8
               ++ Cmd Quit :: repeat (Main green_screen) 2 in
  key_events (snd (run default_config sched init_world))
  = [EvKeyDown "w"; EvKeyUp "w"; EvKeyDown "w"; EvKeyUp "w"]
  /\ keys_ok (snd (run default_config sched init_world)) false = true.
Proof.
  intros sched. split.
  - vm_compute. reflexivity.
  - apply (key_events_alternate default_config sched). reflexivity.
Defined.

Lemma active_body_grabs (cfg : Config) (sct : Sct) (w : World) :
  List.filter is_grab (snd (active_body cfg sct w))
  = [EvGrab (sample_region cfg)].
Proof.
  unfold active_body.
  destruct (read_pixel_state sct cfg) as [s|e]; [| reflexivity].
  destruct (observe cfg s (app w)) as [st1 [s'|]]; [| reflexivity].
  destruct (actuate_cases cfg s st1)
    as [(_ & _ & E)|[(_ & _ & E)|(_ & E)]]; rewrite E;
    match goal with |- context [console_output ?a ?b] =>
      destruct (console_output_keeps a b) as (_ & _ & _ & Hg);
      destruct (console_output a b) as [w' lines]
    end; simpl in *; rewrite ?List.filter_app, Hg; reflexivity.
Qed.

(** X13.  One step does at most one capture and at most one actuation:
    its key events are none, one key-down or one key-up, always on
    [move_key]; its grabs are none or one, always of the configured
    region. *)
Theorem step_one_grab_one_key :
  forall (cfg : Config) (i : Input) (w : World),
    let evs := snd (step cfg i w) in
    (key_events evs = []
     \/ key_events evs = [EvKeyDown (move_key cfg)]
     \/ key_events evs = [EvKeyUp (move_key cfg)])
    /\ (List.filter is_grab evs = []
        \/ List.filter is_grab evs = [EvGrab (sample_region cfg)]).
Proof.
  intros cfg i w evs. subst evs. destruct i as [c|sct|]; simpl.
  - auto.
  - unfold main_step. destruct (pc w).
    + destruct (running (app w)); simpl; auto.
    + destruct (calibrating (app w)); simpl; auto.
    + unfold calibrate_iteration.
      destruct (negb (calibrating (app w))); [simpl; auto |].
      match goal with |- context [match ?x with Ok _ => _ | Raise _ => _ end] =>
        destruct x end; simpl; auto.
    + destruct (negb (enabled (app w))); simpl; auto.
    + unfold disabled_body. destruct (is_moving (app w)); simpl; auto.
    + split; [| right; apply active_body_grabs].
      destruct (active_body_cases cfg sct w)
        as [(e & _ & E)|[(s & _ & _ & E)|(s & _ & _ & _ & _ & _ & Hk)]].
      * rewrite E. auto.
      * rewrite E. auto.
      * cbv zeta in Hk. rewrite Hk.
        destruct (actuate_cases cfg s
                    (set_current_state s (debounce s (app w))))
          as [(_ & _ & E)|[(_ & _ & E)|(_ & E)]]; rewrite E; auto.
    + unfold finally_block. simpl. destruct (is_moving (app w)); simpl; auto.
    + simpl. auto.
  - destruct (in_try (pc w)); simpl; auto.
Qed.

(** ** Control loop: a confirmed state that outlives the key *)

Lemma step_shows_confirmed (cfg : Config) (s : PixelState) (i : Input)
    (w : World) :
  current_state (app w) = s ->
  is_moving (app w) = false ->
  shows cfg s i ->
  key_events (snd (step cfg i w)) = []
  /\ current_state (app (fst (step cfg i w))) = s
  /\ is_moving (app (fst (step cfg i w))) = false.
Proof.
  intros Hc Hm Hshows. destruct i as [c|sct|]; simpl.
  - destruct c; auto.
  - unfold main_step. destruct (pc w).
    + destruct (running (app w)); auto.
    + destruct (calibrating (app w)); auto.
    + unfold calibrate_iteration.
      destruct (negb (calibrating (app w))); [auto |].
      match goal with |- context [match ?x with Ok _ => _ | Raise _ => _ end] =>
        destruct x end; auto.
    + destruct (negb (enabled (app w))); auto.
    + unfold disabled_body. rewrite Hm. auto.
    + simpl in Hshows.
      destruct (active_body_cases cfg sct w)
        as [(e & _ & E)|[(s' & _ & _ & E)|(s' & Hr & _ & Hne & _)]].
      * rewrite E. auto.
      * rewrite E. simpl.
        destruct (debounce_keeps s' (app w)) as (_ & _ & _ & K1 & K2).
        rewrite K1, K2. auto.
      * rewrite Hr in Hshows. congruence.
    + unfold finally_block. simpl. rewrite Hm. auto.
    + auto.
  - destruct (in_try (pc w)); auto.
Qed.

(** X14.  When the key is not held and the confirmed state is [s], then
    for as long as the screen keeps showing [s] no key event is issued,
    whatever commands arrive.  In particular, after a disable has
    released the key while GREEN was confirmed, re-enabling does not
    press the key again while the screen stays GREEN: the confirmed
    state was kept, so no transition is seen. *)
Theorem no_actuation_while_screen_shows_confirmed :
  forall (cfg : Config) (s : PixelState) (sched : list Input) (w : World),
    current_state (app w) = s ->
    is_moving (app w) = false ->
    Forall (shows cfg s) sched ->
    key_events (snd (run cfg sched w)) = []
    /\ current_state (app (fst (run cfg sched w))) = s
    /\ is_moving (app (fst (run cfg sched w))) = false.
Proof.
  intros cfg s sched. induction sched as [|i sched IH]; intros w Hc Hm Hall.
  - simpl. auto.
  - apply Forall_cons in Hall as [Hi Hall]. cbn [run].
    destruct (step_shows_confirmed cfg s i w Hc Hm Hi) as (K1 & K2 & K3).
    destruct (step cfg i w) as [w1 evs1]. cbn [fst snd] in *.
    destruct (IH w1 K2 K3 Hall) as (J1 & J2 & J3).
    destruct (run cfg sched w1) as [w2 evs2]. cbn [fst snd] in *.
    rewrite key_events_app, K1, J1. auto.
Qed.

(** Walking on GREEN, disabled for one tick, enabled again: twelve more
    steps on a GREEN screen and the key is still up. *)
Lemma no_actuation_while_screen_shows_confirmed_witness :
  let w := fst (run default_config
                  (walk_schedule ++ Cmd ToggleEnable
                   :: repeat (Main green_screen) 4 ++ [Cmd ToggleEnable])
                  init_world) in
  enabled (app w) = true
  /\ key_events (snd (run default_config (repeat (Main green_screen) 12) w))
     = []
  /\ is_moving
       (app (fst (run default_config (repeat (Main green_screen) 12) w)))
     = false.
Proof.
  intros w.
  assert (Hall : Forall (shows default_config GREEN)
                   (repeat (Main green_screen) 12)).
  { repeat constructor. }
  destruct (no_actuation_while_screen_shows_confirmed default_config GREEN
              (repeat (Main green_screen) 12) w eq_refl eq_refl Hall)
    as (H1 & _ & H3).
  split; [reflexivity |]. split; [exact H1 | exact H3].
Defined.

(** ** Calibration *)

Lemma calibration_step_stays (cfg : Config) (i : Input) (w : World) :
  pc w = CalLoop ->
  calibrating (app w) = true ->
  keeps_calibrating cfg i = true ->
  pc (fst (step cfg i w)) = CalLoop
  /\ calibrating (app (fst (step cfg i w))) = true
  /\ key_events (snd (step cfg i w)) = []
  /\ is_moving (app (fst (step cfg i w))) = is_moving (app w)
  /\ current_state (app (fst (step cfg i w))) = current_state (app w).
Proof.
  intros Hpc Hcal Hkeep. destruct i as [c|sct|]; simpl in *.
  - destruct c; try discriminate; simpl; auto.
  - unfold main_step. rewrite Hpc. unfold calibrate_iteration.
    rewrite Hcal. cbn [negb].
    unfold calibration_sample_ok in Hkeep.
    destruct (sct (sample_region cfg)) as [img|e]; [| discriminate].
    cbn [mbind Result_bind].
    destruct (sample_size cfg / 2 <? 0); [discriminate |].
    destruct (img_pixel img (Z.to_nat (sample_size cfg / 2))
                (Z.to_nat (sample_size cfg / 2))) as [px|e];
      [| discriminate].
    simpl. auto.
  - discriminate.
Qed.

(** X15.  While the main thread is inside [calibrate] and calibration
    stays on, nothing but the calibration toggle gets it out: toggling
    [enabled] or quitting, in any number and order, together with any
    number of successful samples, leaves it in the loop of [calibrate],
    with no key event and the held flag and confirmed state unchanged
    (a key held on entry stays held). *)
Theorem calibration_freezes_actuation :
  forall (cfg : Config) (sched : list Input) (w : World),
    pc w = CalLoop ->
    calibrating (app w) = true ->
    forallb (keeps_calibrating cfg) sched = true ->
    pc (fst (run cfg sched w)) = CalLoop
    /\ key_events (snd (run cfg sched w)) = []
    /\ is_moving (app (fst (run cfg sched w))) = is_moving (app w)
    /\ current_state (app (fst (run cfg sched w))) = current_state (app w).
Proof.
  intros cfg sched. induction sched as [|i sched IH]; intros w Hpc Hcal Hall.
  - simpl. auto.
  - cbn [forallb] in Hall. apply andb_true_iff in Hall as [Hi Hall].
    cbn [run].
    destruct (calibration_step_stays cfg i w Hpc Hcal Hi)
      as (K1 & K2 & K3 & K4 & K5).
    destruct (step cfg i w) as [w1 evs1]. cbn [fst snd] in *.
    destruct (IH w1 K1 K2 Hall) as (J1 & J2 & J3 & J4).
    destruct (run cfg sched w1) as [w2 evs2]. cbn [fst snd] in *.
    rewrite key_events_app, K3, J2. repeat split; congruence.
Qed.

(** The key is held when calibration starts; disable and quit follow. *)
Lemma calibration_freezes_actuation_witness :
  let w := fst (run default_config
                  (walk_schedule
                   ++ [Cmd ToggleCalibrate; Main green_screen;
                       Main green_screen]) init_world) in
  let sched := [Cmd ToggleEnable; Main red_screen; Cmd Quit;
                Main red_screen; Main red_screen] in
  is_moving (app w) = true
  /\ pc (fst (run default_config sched w)) = CalLoop
  /\ key_events (snd (run default_config sched w)) = []
  /\ is_moving (app (fst (run default_config sched w))) = true.
Proof.
  intros w sched.
  destruct (calibration_freezes_actuation default_config sched w
              eq_refl eq_refl eq_refl) as (H1 & H2 & H3 & _).
  split; [reflexivity |]. split; [exact H1 |]. split; [exact H2 |].
  rewrite H3. reflexivity.
Defined.

(** ** Console and tray *)

Lemma active_body_confirmed (cfg : Config) (sct : Sct) (w : World)
    (s : PixelState) :
  read_pixel_state sct cfg = Ok s ->
  snd (observe cfg s (app w)) = Some s ->
  last_print_state (fst (active_body cfg sct w)) = Some s
  /\ current_state (app (fst (active_body cfg sct w))) = s
  /\ (last_print_state w <> Some s ->
      In (EvPrint (StateLine s (bool_decide (s = GREEN))))
         (snd (active_body cfg sct w))).
Proof.
  intros Hread Hobs. unfold active_body. rewrite Hread.
  destruct (observe_cases cfg s (app w)) as [[E _]|(E & _ & _)];
    rewrite E in Hobs |- *; [discriminate |].
  pose proof (actuate_keeps cfg s (set_current_state s (debounce s (app w))))
    as (_ & _ & _ & Hcur & Hmov).
  destruct (actuate cfg s (set_current_state s (debounce s (app w))))
    as [st2 keys].
  cbn [fst] in Hcur, Hmov. simpl in Hcur.
  unfold console_output. cbn [last_print_state with_app app].
  destruct (bool_decide_reflect (Some s = last_print_state w)) as [Hl|Hl];
    cbn [fst snd goto app last_print_state].
  - simpl. split; [congruence |]. split; [exact Hcur | congruence].
  - simpl. split; [reflexivity |]. split; [exact Hcur |].
    intros _. right. apply in_or_app. right.
    rewrite Hmov. left. reflexivity.
Qed.

Lemma step_printed_is_confirmed (cfg : Config) (i : Input) (w : World) :
  printed_is_confirmed w -> printed_is_confirmed (fst (step cfg i w)).
Proof.
  unfold printed_is_confirmed. intros Hinv.
  destruct i as [c|sct|]; simpl.
  - destruct c; exact Hinv.
  - unfold main_step. destruct (pc w).
    + destruct (running (app w)); exact Hinv.
    + destruct (calibrating (app w)); exact Hinv.
    + unfold calibrate_iteration.
      destruct (negb (calibrating (app w))); [exact Hinv |].
      match goal with |- context [match ?x with Ok _ => _ | Raise _ => _ end] =>
        destruct x end; exact Hinv.
    + destruct (negb (enabled (app w))); exact Hinv.
    + unfold disabled_body. destruct (is_moving (app w)); exact Hinv.
    + destruct (active_body_cases cfg sct w)
        as [(e & _ & E)|[(s & _ & _ & E)|(s & Hr & Ho & _)]].
      * rewrite E. exact Hinv.
      * rewrite E. simpl.
        destruct (debounce_keeps s (app w)) as (_ & _ & _ & _ & K).
        rewrite K. exact Hinv.
      * destruct (active_body_confirmed cfg sct w s Hr Ho) as (H1 & H2 & _).
        right. rewrite H1, H2. reflexivity.
    + exact Hinv.
    + exact Hinv.
  - destruct (in_try (pc w)); exact Hinv.
Qed.

Lemma run_printed_is_confirmed (cfg : Config) (sched : list Input) :
  printed_is_confirmed (fst (run cfg sched init_world)).
Proof.
  induction sched as [|i sched IH] using rev_ind.
  - left. reflexivity.
  - rewrite run_snoc. cbn [fst]. apply step_printed_is_confirmed. exact IH.
Qed.

(** X16.  Every confirmed transition is printed.  In any state the loop
    can reach, the last state printed is the confirmed one (or nothing
    has been printed), so the test against [last_print_state] never
    suppresses a line: an ACTIVE tick that confirms [s] prints its state
    line, and the line says WALKING exactly when [s] is GREEN. *)
Theorem confirmed_transition_is_printed :
  forall (cfg : Config) (sched : list Input) (sct : Sct) (s : PixelState),
    let w := fst (run cfg sched init_world) in
    pc w = ActiveBody ->
    read_pixel_state sct cfg = Ok s ->
    snd (observe cfg s (app w)) = Some s ->
    In (EvPrint (StateLine s (bool_decide (s = GREEN))))
       (snd (step cfg (Main sct) w))
    /\ last_print_state (fst (step cfg (Main sct) w)) = Some s.
Proof.
  intros cfg sched sct s w Hpc Hread Hobs.
  simpl. unfold main_step. rewrite Hpc.
  destruct (active_body_confirmed cfg sct w s Hread Hobs) as (H1 & _ & H3).
  split; [| exact H1].
  apply H3.
  destruct (observe_cases cfg s (app w)) as [[E _]|(_ & _ & Hne)].
  - rewrite E in Hobs. discriminate.
  - destruct (run_printed_is_confirmed cfg sched) as [Hn|Hs];
      fold w in Hn || fold w in Hs; congruence.
Qed.

Lemma confirmed_transition_is_printed_witness :
  let w := fst (run default_config
                  (Cmd ToggleEnable :: repeat (Main green_screen) 7)
                  init_world) in
  In (EvPrint (StateLine GREEN true))
     (snd (step default_config (Main green_screen) w)).
Proof.
  intros w.
  exact (proj1 (confirmed_transition_is_printed default_config
                  (Cmd ToggleEnable :: repeat (Main green_screen) 7)
                  green_screen GREEN eq_refl eq_refl eq_refl)).
Defined.

(** X17.  The tray icon and the key.  In any state the loop can reach
    with the key held, [update_icon] never yields the red (STOPPED) or
    the yellow (UNKNOWN) icon: it yields the green one when automation
    is enabled and the gray one otherwise. *)
Theorem icon_of_held_key :
  forall (cfg : Config) (sched : list Input),
    let st := app (fst (run cfg sched init_world)) in
    is_moving st = true ->
    update_icon st
    = if enabled st
      then {| icon_color := "green"; icon_title := "AutoWalk: MOVING" |}
      else {| icon_color := "gray"; icon_title := "WoW AutoWalk: OFF" |}.
Proof.
  intros cfg sched st Hm.
  pose proof (run_held_green cfg sched Hm) as Hg. fold st in Hg.
  unfold update_icon. rewrite Hg.
  destruct (enabled st); reflexivity.
Qed.

Lemma icon_of_held_key_witness :
  update_icon (app (fst (run default_config walk_schedule init_world)))
  = {| icon_color := "green"; icon_title := "AutoWalk: MOVING" |}.
Proof.
  exact (icon_of_held_key default_config walk_schedule eq_refl).
Defined.

(** ** Control loop: from the screen to the key *)

(** One iteration of the loop with automation enabled and calibration
    off is the ACTIVE tick: the loop test and the two snapshots emit
    nothing. *)
Lemma active_iteration (cfg : Config) (sct : Sct) (w : World) :
  pc w = LoopHead ->
  running (app w) = true ->
  calibrating (app w) = false ->
  enabled (app w) = true ->
  run cfg (repeat (Main sct) 4) w = active_body cfg sct (goto ActiveBody w).
Proof.
  intros Hpc Hrun Hcal Hen. cbn [repeat run].
  simpl step. unfold main_step at 1. rewrite Hpc, Hrun.
  unfold main_step at 1. cbn [pc goto app]. rewrite Hcal.
  unfold main_step at 1. cbn [pc goto app]. rewrite Hen. cbn [negb].
  unfold main_step at 1. cbn [pc goto app].
  destruct (active_body cfg sct _) as [w1 evs1]. simpl.
  rewrite app_nil_r. reflexivity.
Qed.

Lemma quiet_iteration (cfg : Config) (sct : Sct) (w : World)
    (s : PixelState) :
  pc w = LoopHead ->
  running (app w) = true ->
  calibrating (app w) = false ->
  enabled (app w) = true ->
  read_pixel_state sct cfg = Ok s ->
  snd (observe cfg s (app w)) = None ->
  run cfg (repeat (Main sct) 4) w
  = (with_app (fst (observe cfg s (app w))) w,
     [EvGrab (sample_region cfg); EvSleep PollRate]).
Proof.
  intros Hpc Hrun Hcal Hen Hread Hobs.
  rewrite (active_iteration cfg sct w Hpc Hrun Hcal Hen).
  destruct (active_body_cases cfg sct (goto ActiveBody w))
    as [(e & Hr & _)|[(s' & Hr & _ & E)|(s' & Hr & Ho & _)]];
    rewrite Hread in Hr; try discriminate; injection Hr as <-.
  - rewrite E. cbn [app goto].
    destruct (observe_cases cfg s (app w)) as [[Eo _]|(Eo & _)];
      rewrite Eo in Hobs |- *; [| discriminate].
    destruct w as [st p lp]. simpl in Hpc. subst p. reflexivity.
  - cbn [app goto] in Ho. congruence.
Qed.

(** Iterations that confirm nothing only move the accumulator. *)
Lemma quiet_iterations (cfg : Config) (sct : Sct) (s : PixelState) :
  forall (k : nat) (w : World),
    pc w = LoopHead ->
    running (app w) = true ->
    calibrating (app w) = false ->
    enabled (app w) = true ->
    read_pixel_state sct cfg = Ok s ->
    snd (feed cfg (repeat s k) (app w)) = repeat None k ->
    fst (run cfg (repeat (Main sct) (4 * k)) w)
    = with_app (fst (feed cfg (repeat s k) (app w))) w
    /\ key_events (snd (run cfg (repeat (Main sct) (4 * k)) w)) = [].
Proof.
  induction k as [|k IH]; intros w Hpc Hrun Hcal Hen Hread Hfeed.
  - simpl. destruct w; auto.
  - replace (4 * S k)%nat with (4 + 4 * k)%nat by lia.
    rewrite repeat_app, run_app.
    change (repeat s (S k)) with (s :: repeat s k) in Hfeed |- *.
    cbn [feed] in Hfeed |- *.
    destruct (observe cfg s (app w)) as [st1 out] eqn:Eo.
    destruct (feed cfg (repeat s k) st1) as [st2 outs] eqn:Ef.
    cbn [snd fst] in Hfeed. injection Hfeed as Hout Houts. subst out.
    assert (Hq := quiet_iteration cfg sct w s Hpc Hrun Hcal Hen Hread).
    rewrite Eo in Hq. specialize (Hq eq_refl). cbn [fst] in Hq.
    rewrite Hq. cbn [fst snd].
    assert (Hdeb : st1 = debounce s (app w)).
    { destruct (observe_cases cfg s (app w)) as [[E _]|(E & _)];
        rewrite E in Eo; congruence. }
    destruct (debounce_keeps s (app w)) as (K1 & K2 & K3 & _).
    destruct (IH (with_app st1 w)) as [H1 H2]; cbn [pc app with_app];
      try congruence.
    { rewrite Ef. exact Houts. }
    cbn [app with_app] in H1. rewrite Ef in H1. cbn [fst] in H1.
    rewrite H1, key_events_app, H2. split; reflexivity.
Qed.

(** A fresh run of [r] confirms at its [debounce_frames]-th reading. *)
Lemma feed_fresh_run (cfg : Config) (r : PixelState) (st : AppState)
    (m : nat) :
  current_state st <> r ->
  pending_state st <> r ->
  debounce_frames cfg = Z.of_nat (S m) ->
  snd (feed cfg (repeat r m) st) = repeat None m
  /\ snd (observe cfg r (fst (feed cfg (repeat r m) st))) = Some r.
Proof.
  intros Hc Hp HN. destruct m as [|m'].
  - simpl. rewrite (observe_restart cfg r st Hp).
    rewrite (bool_decide_eq_false_2 (r = current_state st)) by congruence.
    destruct (Z.geb_spec 1 (debounce_frames cfg)) as [_|Hlt]; [| lia].
    split; reflexivity.
  - cbn [repeat feed]. rewrite (observe_restart cfg r st Hp).
    destruct (Z.geb_spec 1 (debounce_frames cfg)) as [Hge|_]; [lia |].
    cbn [andb].
    destruct (feed_repeat_pending cfg r m'
                (set_debounce_count 1 (set_pending_state r st)))
      as (H1 & H2 & H3 & H4); [reflexivity | exact Hc | simpl; lia |].
    destruct (feed cfg (repeat r m')
                (set_debounce_count 1 (set_pending_state r st)))
      as [st2 outs].
    cbn [fst snd] in *. rewrite H1. split; [reflexivity |].
    simpl in H3, H4.
    rewrite (observe_pending cfg r st2 H2) by congruence.
    destruct (Z.geb_spec (debounce_count st2 + 1) (debounce_frames cfg))
      as [_|Hlt]; [reflexivity | lia].
Qed.

(** X18.  From the screen to the key.  The loop is at its test with
    automation enabled and calibration off, and neither the pending nor
    the confirmed state is [s].  If the screen then shows [s] for N =
    [debounce_frames] iterations (N at least 1), the first N - 1 issue
    no key event and the N-th confirms [s]: afterwards the confirmed
    state is [s] and the key is held exactly when [s] is GREEN, the
    N-th iteration having issued the one key event this requires. *)
Theorem actuation_after_debounce_frames_iterations :
  forall (cfg : Config) (sct : Sct) (s : PixelState) (w : World) (m : nat),
    pc w = LoopHead ->
    running (app w) = true ->
    calibrating (app w) = false ->
    enabled (app w) = true ->
    read_pixel_state sct cfg = Ok s ->
    current_state (app w) <> s ->
    pending_state (app w) <> s ->
    debounce_frames cfg = Z.of_nat (S m) ->
    let quiet := run cfg (repeat (Main sct) (4 * m)) w in
    let last := run cfg (repeat (Main sct) 4) (fst quiet) in
    key_events (snd quiet) = []
    /\ is_moving (app (fst quiet)) = is_moving (app w)
    /\ current_state (app (fst last)) = s
    /\ is_moving (app (fst last)) = bool_decide (s = GREEN)
    /\ key_events (snd last)
       = (if bool_decide (s = GREEN)
          then if is_moving (app w) then []
               else [EvKeyDown (move_key cfg)]
          else if is_moving (app w) then [EvKeyUp (move_key cfg)]
               else []).
Proof.
  intros cfg sct s w m Hpc Hrun Hcal Hen Hread Hc Hp HN quiet last.
  destruct (feed_fresh_run cfg s (app w) m Hc Hp HN) as [Hnone Hsome].
  destruct (quiet_iterations cfg sct s m w Hpc Hrun Hcal Hen Hread Hnone)
    as [Hw Hk].
  fold quiet in Hw, Hk.
  set (st := fst (feed cfg (repeat s m) (app w))) in *.
  assert (Hkeep : enabled st = enabled (app w)
                  /\ running st = running (app w)
                  /\ calibrating st = calibrating (app w)
                  /\ is_moving st = is_moving (app w)).
  { subst st. clear - Hnone. revert Hnone. generalize (app w).
    induction m as [|m IH]; intros st0 Hnone; [simpl; auto |].
    cbn [repeat feed] in *.
    destruct (observe_cases cfg s st0) as [[E _]|(E & _)]; rewrite E in *.
    - destruct (feed cfg (repeat s m) (debounce s st0)) as [st2 outs] eqn:Ef.
      cbn [fst snd] in *. injection Hnone as Houts.
      specialize (IH (debounce s st0)). rewrite Ef in IH.
      destruct (IH Houts) as (H1 & H2 & H3 & H4).
      destruct (debounce_keeps s st0) as (K1 & K2 & K3 & K4 & _).
      cbn [fst] in *. repeat split; congruence.
    - destruct (feed cfg (repeat s m) _) as [st2 outs].
      cbn [snd] in Hnone. discriminate. }
  destruct Hkeep as (Ken & Krun & Kcal & Kmov).
  split; [exact Hk |].
  split; [rewrite Hw; exact Kmov |].
  subst last. rewrite Hw.
  rewrite active_iteration; cbn [pc app with_app]; try congruence.
  destruct (active_body_cases cfg sct (goto ActiveBody (with_app st w)))
    as [(e & Hr & _)|[(s' & Hr & Ho & _)|(s' & Hr & _ & _ & Ha & _ & Hke)]];
    rewrite Hread in Hr; try discriminate; injection Hr as <-.
  - cbn [app goto with_app] in Ho. congruence.
  - cbv zeta in Ha, Hke. cbn [app goto with_app] in Ha, Hke.
    rewrite Ha, Hke.
    destruct (actuate_keeps cfg s (set_current_state s (debounce s st)))
      as (_ & _ & _ & Hcur & Hmov).
    split; [exact Hcur |]. split; [exact Hmov |].
    destruct (debounce_keeps s st) as (_ & _ & _ & Dm & _).
    destruct (actuate_cases cfg s (set_current_state s (debounce s st)))
      as [(Hs & Hm & E)|[(Hs & Hm & E)|(Hm & E)]];
      rewrite E; cbn [snd]; simpl in Hm; rewrite Dm, Kmov in Hm.
    + subst s. rewrite Hm. reflexivity.
    + rewrite (bool_decide_eq_false_2 _ Hs), Hm. reflexivity.
    + rewrite Hm. destruct (bool_decide (s = GREEN)); reflexivity.
Qed.

(** Enabled on a GREEN screen with the defaults: no key event in the
    first iteration, a key-down in the second. *)
Lemma actuation_after_debounce_frames_iterations_witness :
  let w := fst (run default_config [Cmd ToggleEnable] init_world) in
  let quiet := run default_config (repeat (Main green_screen) 4) w in
  let last := run default_config (repeat (Main green_screen) 4)
                (fst quiet) in
  key_events (snd quiet) = []
  /\ key_events (snd last) = [EvKeyDown "w"]
  /\ is_moving (app (fst last)) = true.
Proof.
  intros w quiet last.
  assert (Hc : current_state (app w) <> GREEN) by discriminate.
  assert (Hp : pending_state (app w) <> GREEN) by discriminate.
  assert (HN : debounce_frames default_config = Z.of_nat 2) by reflexivity.
  destruct (actuation_after_debounce_frames_iterations default_config
              green_screen GREEN w 1 eq_refl eq_refl eq_refl eq_refl eq_refl
              Hc Hp HN) as (H1 & _ & _ & H4 & H5).
  split; [exact H1 |]. split; [exact H5 | exact H4].
Defined.

(** * The key after a disable or a stop *)

Lemma key_tracked_is_down (w : World) (d : bool) :
  key_tracked w d <-> d = key_is_down w.
Proof. unfold key_tracked, key_is_down. destruct (pc w); tauto. Qed.

Lemma run_key_is_down (cfg : Config) (sched : list Input) :
  key_down_after (snd (run cfg sched init_world)) false
  = key_is_down (fst (run cfg sched init_world)).
Proof. apply key_tracked_is_down, run_key_tracked. Qed.

Lemma interrupt_free_app (a b : list Input) :
  interrupt_free (a ++ b) = interrupt_free a && interrupt_free b.
Proof. unfold interrupt_free. apply forallb_app. Qed.

Section OnlyReleases.
Variable cfg : Config.
Variable Inv : World -> Prop.
Variable ok : Input -> bool.
Hypothesis Hstep : forall (i : Input) (w : World),
  Inv w -> ok i = true ->
  Inv (fst (step cfg i w)) /\ only_releases cfg w (step cfg i w).

(** If every step from a state of [Inv] stays in [Inv] and only
    releases, so does every run. *)
Lemma run_only_releases : forall (rest : list Input) (w : World),
  Inv w -> forallb ok rest = true ->
  Inv (fst (run cfg rest w)) /\ only_releases cfg w (run cfg rest w).
Proof using Hstep.
  unfold only_releases in *.
  induction rest as [|i rest IH]; intros w Hinv Hall.
  - simpl. split; [exact Hinv |]. rewrite andb_negb_r. auto.
  - cbn [forallb] in Hall. apply andb_true_iff in Hall as [Hi Hall].
    cbn [run].
    destruct (Hstep i w Hinv Hi) as (Hinv1 & Hk1 & Hd1).
    destruct (step cfg i w) as [w1 evs1]. cbn [fst snd] in *.
    destruct (IH w1 Hinv1 Hall) as (Hinv2 & Hk2 & Hd2).
    destruct (run cfg rest w1) as [w2 evs2]. cbn [fst snd] in *.
    split; [exact Hinv2 |]. split.
    + rewrite key_events_app, Hk1, Hk2.
      destruct (key_is_down w) eqn:D0; destruct (key_is_down w1) eqn:D1;
        destruct (key_is_down w2) eqn:D2; simpl; try reflexivity;
        first [ specialize (Hd1 eq_refl); discriminate
              | specialize (Hd2 eq_refl); discriminate ].
    + intros D0. apply Hd2, Hd1, D0.
Qed.
End OnlyReleases.

(** Once automation is seen disabled, a step can only release. *)
Lemma disabled_seen_step (cfg : Config) (i : Input) (w : World) :
  disabled_seen w -> keeps_enabled i = true ->
  disabled_seen (fst (step cfg i w)) /\ only_releases cfg w (step cfg i w).
Proof.
  intros [Hen Hpc] Hok. destruct w as [st p lp]. simpl in Hen, Hpc.
  unfold disabled_seen, only_releases, key_is_down.
  destruct (is_moving st) eqn:Hm;
    (destruct i as [c|sct|]; [| | discriminate];
     [ destruct c; try discriminate; destruct p; simpl; rewrite ?Hm;
       repeat split; auto
     | simpl; unfold main_step, calibrate_iteration, disabled_body,
         finally_block;
       destruct p; try congruence; simpl; rewrite ?Hen, ?Hm; simpl;
       repeat match goal with
              | |- context [running st] => destruct (running st)
              | |- context [calibrating st] => destruct (calibrating st)
              | |- context [match ?x with Ok _ => _ | Raise _ => _ end] =>
                  destruct x
              end;
       simpl; rewrite ?Hm; simpl; repeat split; auto; discriminate ]).
Qed.

(** Once the stop is seen, a step can only release. *)
Lemma stop_seen_step (cfg : Config) (i : Input) (w : World) :
  stop_seen w ->
  match i with Interrupt => false | _ => true end = true ->
  stop_seen (fst (step cfg i w)) /\ only_releases cfg w (step cfg i w).
Proof.
  intros [Hrun Hpc] Hok. destruct w as [st p lp]. simpl in Hrun, Hpc.
  unfold stop_seen, only_releases, key_is_down.
  destruct (is_moving st) eqn:Hm;
    (destruct i as [c|sct|]; [| | discriminate];
     [ destruct c; destruct p; simpl; rewrite ?Hm; repeat split; auto
     | simpl; unfold main_step, finally_block;
       destruct p; try (destruct Hpc; discriminate);
       simpl; rewrite ?Hrun, ?Hm; simpl; rewrite ?Hm; simpl;
       repeat split; auto; discriminate ]).
Qed.

Lemma steps_to_release_zero (w : World) :
  steps_to_release w = 0%nat -> key_is_down w = false.
Proof.
  unfold steps_to_release.
  destruct (key_is_down w) eqn:D; [| reflexivity].
  unfold key_is_down in D. destruct (pc w); discriminate.
Qed.

Lemma steps_to_release_bound (w : World) : (steps_to_release w <= 5)%nat.
Proof.
  unfold steps_to_release.
  destruct (key_is_down w); [destruct (pc w) |]; lia.
Qed.

(** Seen disabled and outside calibration, each step of the main thread
    brings the release nearer, and a quit does not delay it. *)
Lemma disabled_seen_rank (cfg : Config) (i : Input) (w : World) :
  disabled_seen w ->
  calibrating (app w) = false ->
  keeps_mode i = true ->
  calibrating (app (fst (step cfg i w))) = false
  /\ (steps_to_release (fst (step cfg i w)) + main_steps [i]
      <= Nat.max (steps_to_release w) (main_steps [i]))%nat.
Proof.
  intros [Hen Hpc] Hcal Hok. destruct w as [st p lp].
  simpl in Hen, Hpc, Hcal.
  unfold steps_to_release, key_is_down, main_steps.
  destruct (is_moving st) eqn:Hm;
    (destruct i as [c|sct|]; [| | discriminate];
     [ destruct c; try discriminate; destruct p; simpl; rewrite ?Hm;
       simpl; split; auto; lia
     | simpl; unfold main_step, calibrate_iteration, disabled_body,
         finally_block;
       destruct p; try congruence; simpl; rewrite ?Hen, ?Hcal, ?Hm; simpl;
       repeat match goal with
              | |- context [running st] => destruct (running st)
              end;
       simpl; rewrite ?Hm; simpl; split; auto; lia ]).
Qed.

Lemma keeps_mode_keeps_enabled (i : Input) :
  keeps_mode i = true -> keeps_enabled i = true.
Proof. destruct i as [c| |]; [destruct c | |]; auto. Qed.

Lemma main_steps_cons (i : Input) (rest : list Input) :
  main_steps (i :: rest) = (main_steps [i] + main_steps rest)%nat.
Proof. unfold main_steps. destruct i; reflexivity. Qed.

Lemma disabled_seen_released (cfg : Config) :
  forall (rest : list Input) (w : World),
    disabled_seen w ->
    calibrating (app w) = false ->
    forallb keeps_mode rest = true ->
    (steps_to_release (fst (run cfg rest w)) + main_steps rest
     <= Nat.max (steps_to_release w) (main_steps rest))%nat.
Proof.
  induction rest as [|i rest IH]; intros w Hdis Hcal Hall.
  - simpl. unfold main_steps. simpl. lia.
  - cbn [forallb] in Hall. apply andb_true_iff in Hall as [Hi Hall].
    cbn [run]. rewrite main_steps_cons.
    destruct (disabled_seen_rank cfg i w Hdis Hcal Hi) as [Hcal1 Hrank].
    destruct (disabled_seen_step cfg i w Hdis
                (keeps_mode_keeps_enabled i Hi)) as [Hdis1 _].
    destruct (step cfg i w) as [w1 evs1]. cbn [fst snd] in *.
    specialize (IH w1 Hdis1 Hcal1 Hall).
    destruct (run cfg rest w1) as [w2 evs2]. cbn [fst snd] in *.
    lia.
Qed.

Lemma stop_seen_rank (cfg : Config) (i : Input) (w : World) :
  stop_seen w ->
  match i with Interrupt => false | _ => true end = true ->
  (steps_to_exit (pc (fst (step cfg i w))) + main_steps [i]
   <= Nat.max (steps_to_exit (pc w)) (main_steps [i]))%nat
  /\ (steps_to_exit (pc w) <= 2)%nat.
Proof.
  intros [Hrun Hpc] Hok. destruct w as [st p lp]. simpl in Hrun, Hpc.
  unfold main_steps.
  destruct i as [c|sct|]; [| | discriminate].
  - simpl. destruct p; try (destruct Hpc; discriminate); simpl; lia.
  - simpl. unfold main_step, finally_block.
    destruct p; try (destruct Hpc; discriminate);
      simpl; rewrite ?Hrun; simpl; lia.
Qed.

Lemma stop_seen_exits (cfg : Config) :
  forall (rest : list Input) (w : World),
    stop_seen w ->
    interrupt_free rest = true ->
    (steps_to_exit (pc (fst (run cfg rest w))) + main_steps rest
     <= Nat.max (steps_to_exit (pc w)) (main_steps rest))%nat.
Proof.
  unfold interrupt_free.
  induction rest as [|i rest IH]; intros w Hstop Hall.
  - simpl. unfold main_steps. simpl. lia.
  - cbn [forallb] in Hall. apply andb_true_iff in Hall as [Hi Hall].
    cbn [run]. rewrite main_steps_cons.
    destruct (stop_seen_rank cfg i w Hstop Hi) as [Hrank _].
    destruct (stop_seen_step cfg i w Hstop Hi) as [Hstop1 _].
    destruct (step cfg i w) as [w1 evs1]. cbn [fst snd] in *.
    specialize (IH w1 Hstop1 Hall).
    destruct (run cfg rest w1) as [w2 evs2]. cbn [fst snd] in *.
    lia.
Qed.

(** A step of the main thread that leaves the [try] body (the loop test
    finding [running] false, or a sample that raises) goes to the
    cleanup without a key event and without touching the state. *)
Lemma leaving_the_loop (cfg : Config) (sct : Sct) (w : World) :
  in_try (pc w) = true ->
  in_try (pc (fst (step cfg (Main sct) w))) = false ->
  (exists o, fst (step cfg (Main sct) w) = goto (Finally o) w)
  /\ key_events (snd (step cfg (Main sct) w)) = [].
Proof.
  simpl. unfold main_step. destruct (pc w) eqn:Hpc; try discriminate;
    intros _.
  - destruct (running (app w)); simpl; [discriminate | eauto].
  - destruct (calibrating (app w)); simpl; discriminate.
  - unfold calibrate_iteration.
    destruct (negb (calibrating (app w))); [simpl; discriminate |].
    match goal with
    | |- context [match ?x with Ok _ => _ | Raise _ => _ end] => destruct x
    end; simpl; [rewrite Hpc; discriminate | eauto].
  - destruct (negb (enabled (app w))); simpl; discriminate.
  - unfold disabled_body. destruct (is_moving (app w)); simpl; discriminate.
  - destruct (active_body_cases cfg sct w)
      as [(e & _ & E)|[(s & _ & _ & E)|(s & _ & _ & _ & _ & Hp & _)]].
    + rewrite E. simpl. eauto.
    + rewrite E. simpl. discriminate.
    + rewrite Hp. simpl. discriminate.
Qed.

Lemma only_releases_shape (cfg : Config) (w : World)
    (r : World * list Event) :
  only_releases cfg w r ->
  (key_events (snd r) = []
   \/ (key_is_down w = true
       /\ key_events (snd r) = [EvKeyUp (move_key cfg)]))
  /\ (key_is_down (fst r) = false ->
      key_events (snd r)
      = if key_is_down w then [EvKeyUp (move_key cfg)] else []).
Proof.
  intros [Hk _]. rewrite Hk. split.
  - destruct (key_is_down w), (key_is_down (fst r)); simpl; auto.
  - intros ->. rewrite andb_true_r. reflexivity.
Qed.

Lemma steps_to_exit_zero (p : Pc) :
  steps_to_exit p = 0%nat -> exists o, p = Done o.
Proof. destruct p; try discriminate. eauto. Qed.

(** C1, as the code has it.  In every trace from the initial state in
    which no Ctrl-C occurs:
    - the key on the device is down exactly when the held flag is set,
      until [main] has ended, when it is up;
    - commands issue no event and leave the held flag and the program
      point alone;
    - a step of the loop that finds [enabled] false at its snapshot goes
      to the disabled branch, one that finds [running] false at the
      loop test goes to the cleanup, and any step that leaves the loop
      (also on an error of the sample) goes to the cleanup, all without
      a key event; the disabled branch and the cleanup issue a key-up
      exactly when the key is held and no key-down, after which the key
      is up; an ACTIVE tick in flight when [enabled] turns false ends
      with that one step;
    - once [enabled] is false and no ACTIVE tick is in flight, then for
      as long as it stays false (calibration or not) the only key event
      the loop can issue is one key-up, and only if the key was down:
      never a key-down; outside calibration, five steps of the main
      thread suffice for that key-up to have been issued when the key
      was down, and the key is then up;
    - once [running] is false and no iteration is in flight, the same
      holds whatever commands arrive, and two steps of the main thread
      end [main] with the key up. *)
Theorem release_on_observed_disable_or_exit :
  forall (cfg : Config) (sched : list Input),
    interrupt_free sched = true ->
    let w := fst (run cfg sched init_world) in
    let evs := snd (run cfg sched init_world) in
    key_down_after evs false = key_is_down w
    /\ (forall o, pc w = Done o -> key_down_after evs false = false)
    /\ (forall c : Command,
          snd (step cfg (Cmd c) w) = []
          /\ pc (fst (step cfg (Cmd c) w)) = pc w
          /\ is_moving (app (fst (step cfg (Cmd c) w))) = is_moving (app w))
    /\ (forall sct : Sct,
          let w' := fst (step cfg (Main sct) w) in
          let evs' := snd (step cfg (Main sct) w) in
          (pc w = EnSnapshot -> enabled (app w) = false ->
           w' = goto DisabledBody w /\ evs' = [])
          /\ (pc w = LoopHead -> running (app w) = false ->
              w' = goto (Finally Returned) w /\ evs' = [])
          /\ (in_try (pc w) = true -> in_try (pc w') = false ->
              (exists o, w' = goto (Finally o) w) /\ key_events evs' = [])
          /\ (pc w = DisabledBody \/ (exists o, pc w = Finally o) ->
              key_events evs'
              = (if is_moving (app w) then [EvKeyUp (move_key cfg)] else [])
              /\ key_down_after (evs ++ evs') false = false)
          /\ (pc w = ActiveBody -> enabled (app w) = false ->
              disabled_seen w'))
    /\ (disabled_seen w ->
        forall rest : list Input,
          forallb keeps_enabled rest = true ->
          let r := run cfg rest w in
          (key_events (snd r) = []
           \/ (key_is_down w = true
               /\ key_events (snd r) = [EvKeyUp (move_key cfg)]))
          /\ (calibrating (app w) = false ->
              forallb keeps_mode rest = true ->
              (5 <= main_steps rest)%nat ->
              key_events (snd r)
              = (if key_is_down w then [EvKeyUp (move_key cfg)] else [])
              /\ key_down_after (evs ++ snd r) false = false))
    /\ (stop_seen w ->
        forall rest : list Input,
          interrupt_free rest = true ->
          let r := run cfg rest w in
          (key_events (snd r) = []
           \/ (key_is_down w = true
               /\ key_events (snd r) = [EvKeyUp (move_key cfg)]))
          /\ ((2 <= main_steps rest)%nat ->
              (exists o, pc (fst r) = Done o)
              /\ key_events (snd r)
                 = (if key_is_down w then [EvKeyUp (move_key cfg)] else [])
              /\ key_down_after (evs ++ snd r) false = false)).
Proof.
  intros cfg sched _ w evs.
  pose proof (run_key_is_down cfg sched) as Hdown. fold w evs in Hdown.
  assert (Hend : forall rest : list Input,
             key_down_after (evs ++ snd (run cfg rest w)) false
             = key_is_down (fst (run cfg rest w))).
  { intros rest. pose proof (run_key_is_down cfg (sched ++ rest)) as H.
    rewrite run_app in H. exact H. }
  split; [exact Hdown |].
  split.
  { intros o Hpc. rewrite Hdown. unfold key_is_down. rewrite Hpc.
    reflexivity. }
  split.
  { intros c. simpl. destruct c; auto. }
  split.
  { intros sct w' evs'. subst w' evs'.
    split; [| split; [| split; [| split]]].
    - intros Hpc Hen. simpl. unfold main_step. rewrite Hpc, Hen. auto.
    - intros Hpc Hrun. simpl. unfold main_step. rewrite Hpc, Hrun. auto.
    - apply leaving_the_loop.
    - intros Hpc. split; [apply release_step; exact Hpc |].
      rewrite key_down_after_app, <- key_down_after_key_events.
      rewrite (release_step cfg sct w Hpc), Hdown.
      unfold key_is_down.
      destruct Hpc as [Hpc|[o Hpc]]; rewrite Hpc;
        destruct (is_moving (app w)); reflexivity.
    - intros Hpc Hen. split.
      + destruct (main_step_keeps_flags cfg (Main sct) w eq_refl)
          as (H1 & _). congruence.
      + simpl. unfold main_step. rewrite Hpc.
        destruct (active_body_cases cfg sct w)
          as [(e & _ & E)|[(s & _ & _ & E)|(s & _ & _ & _ & _ & Hp & _)]].
        * rewrite E. discriminate.
        * rewrite E. discriminate.
        * rewrite Hp. discriminate. }
  split.
  - intros Hdis rest Hall r. subst r.
    destruct (run_only_releases cfg disabled_seen keeps_enabled
                (disabled_seen_step cfg) rest w Hdis Hall) as [_ Hrel].
    destruct (only_releases_shape cfg w _ Hrel) as [Hshape Hlive].
    split; [exact Hshape |].
    intros Hcal Hmode Hsteps.
    pose proof (disabled_seen_released cfg rest w Hdis Hcal Hmode) as Hrank.
    pose proof (steps_to_release_bound w) as Hb.
    assert (Hup : key_is_down (fst (run cfg rest w)) = false).
    { apply steps_to_release_zero. lia. }
    split; [apply Hlive; exact Hup |].
    rewrite Hend. exact Hup.
  - intros Hstop rest Hall r. subst r.
    destruct (run_only_releases cfg stop_seen
                (fun i => match i with Interrupt => false | _ => true end)
                (stop_seen_step cfg) rest w Hstop Hall) as [_ Hrel].
    destruct (only_releases_shape cfg w _ Hrel) as [Hshape Hlive].
    split; [exact Hshape |].
    intros Hsteps.
    pose proof (stop_seen_exits cfg rest w Hstop Hall) as Hrank.
    assert (Hb : (steps_to_exit (pc w) <= 2)%nat).
    { destruct Hstop as [_ Hpc]. destruct (pc w);
        try (destruct Hpc; discriminate); simpl; lia. }
    destruct (steps_to_exit_zero (pc (fst (run cfg rest w))))
      as [o Hdone]; [lia |].
    assert (Hup : key_is_down (fst (run cfg rest w)) = false).
    { unfold key_is_down. rewrite Hdone. reflexivity. }
    split; [eauto |].
    split; [apply Hlive; exact Hup |].
    rewrite Hend. exact Hup.
Qed.

(** Walking, then disabled between two iterations: five steps later the
    key-up has been issued and the key is up.  Walking, then stopped
    between two iterations: two steps later [main] has ended with the
    key up. *)
Lemma release_on_observed_disable_or_exit_witness :
  let off := fst (run default_config (walk_schedule ++ [Cmd ToggleEnable])
                    init_world) in
  let stop := fst (run default_config (walk_schedule ++ [Cmd Quit])
                     init_world) in
  key_is_down off = true
  /\ key_events
       (snd (run default_config (repeat (Main green_screen) 5) off))
     = [EvKeyUp "w"]
  /\ key_is_down stop = true
  /\ key_events
       (snd (run default_config (repeat (Main green_screen) 2) stop))
     = [EvKeyUp "w"]
  /\ (exists o,
        pc (fst (run default_config (repeat (Main green_screen) 2) stop))
        = Done o).
Proof.
  intros off stop.
  destruct (release_on_observed_disable_or_exit default_config
              (walk_schedule ++ [Cmd ToggleEnable]) eq_refl)
    as (_ & _ & _ & _ & Hoff & _).
  destruct (release_on_observed_disable_or_exit default_config
              (walk_schedule ++ [Cmd Quit]) eq_refl)
    as (_ & _ & _ & _ & _ & Hstop).
  assert (Hdis : disabled_seen off) by (split; [reflexivity | discriminate]).
  assert (Hst : stop_seen stop) by (split; [reflexivity | left; reflexivity]).
  destruct (Hoff Hdis (repeat (Main green_screen) 5) eq_refl) as [_ Hlive].
  destruct (Hlive eq_refl eq_refl ltac:(unfold main_steps; simpl; lia))
    as [Hk _].
  destruct (Hstop Hst (repeat (Main green_screen) 2) eq_refl) as [_ Hexit].
  destruct (Hexit ltac:(unfold main_steps; simpl; lia))
    as (Hdone & Hk2 & _).
  split; [reflexivity |]. split; [exact Hk |].
  split; [reflexivity |]. split; [exact Hk2 | exact Hdone].
Defined.
